(** * webcam_yolo_vigia: the frame-processing loop and its throttles

    A shallow embedding of [tts_player.py], [headless.py] and
    [GUI_webcam.py].

    Conventions of the model.
    - Timestamps ([time.time()], a float number of seconds) are exact
      integers counting milliseconds: 20 s is [20000], 0.2 s is [200].
    - Every answer of the outside world during one frame (the clock
      readings, the detector output, the motion sensor verdict, the wall
      clock used in the spoken text) is a field of [frame_input].
    - What a frame does to the outside world is a list of [event]s, in
      program order.
    - The picture held in [frame] is represented by the list of boxes drawn
      on it so far; the raw camera picture is [[]].
    - [last_saved_times] is a dict created with the two keys ["motion"] and
      ["person"] and only ever read and written at those two literals: it
      is the pair of fields [last_saved_motion], [last_saved_person].
    - The calls into gTTS, ffmpeg, ffplay, OpenCV and the file system are
      taken to return; the object detector is the one collaborator whose
      failure is modelled ([results = None]). *)

From Stdlib Require Import ZArith List String Bool Lia.
From Stdlib Require Import DecimalString.
From Stdlib Require Import NArith.
Import ListNotations.
Local Open Scope string_scope.
Local Open Scope list_scope.
Local Open Scope Z_scope.

(** ** tts_player.py *)

Module tts_player.

(** What one call does outside the process, in program order. *)
Inductive effect :=
| gTTS_save (text : string) (path : string)
| ffmpeg (src : string) (atempo : Z) (dst : string)
| Thread_start (file_path : string)
    (* play_audio_file: ffplay file_path, then os.remove(file_path) *)
| os_remove (path : string).

Definition original_audio : string := "detection_sound_original.mp3".
Definition adjusted_audio : string := "detection_sound_adjusted.mp3".

(** [play_gtts_text text cooldown speed], with the reading of
    [time.time()] at line 18 and the global [last_audio_time] made
    explicit.  Returns the new value of the global and the effects.
    [speed] is in hundredths (1.71 is [171]). *)
Definition play_gtts_text (text : string) (cooldown speed : Z)
    (current_time last_audio_time : Z) : Z * list effect :=
  if current_time - last_audio_time <? cooldown then
    (last_audio_time, [])
  else
    (current_time,
     [ gTTS_save text original_audio;
       ffmpeg original_audio speed adjusted_audio;
       Thread_start adjusted_audio;
       os_remove original_audio ]).

(** The files an effect writes, and the files it deletes (the thread
    deletes its file after playback). *)
Definition written (e : effect) : list string :=
  match e with
  | gTTS_save _ p => [p]
  | ffmpeg _ _ dst => [dst]
  | Thread_start _ => []
  | os_remove _ => []
  end.

Definition deleted (e : effect) : list string :=
  match e with
  | gTTS_save _ _ => []
  | ffmpeg _ _ _ => []
  | Thread_start p => [p]
  | os_remove p => [p]
  end.

Definition files_written (fx : list effect) : list string := flat_map written fx.
Definition files_deleted (fx : list effect) : list string := flat_map deleted fx.

(** Whether the call went past the cooldown test. *)
Definition spoke (r : Z * list effect) : bool :=
  match snd r with [] => false | _ :: _ => true end.

(** A sequence of calls [(current_time, cooldown)], threading the global. *)
Fixpoint calls (text : string) (speed : Z) (cs : list (Z * Z))
    (last_audio_time : Z) : list bool * Z :=
  match cs with
  | [] => ([], last_audio_time)
  | (t, cooldown) :: rest =>
      let r := play_gtts_text text cooldown speed t last_audio_time in
      let '(bs, final) := calls text speed rest (fst r) in
      (spoke r :: bs, final)
  end.

End tts_player.

(** ** Data shared by headless.py and GUI_webcam.py *)

(** One YOLO box, after [model.names.get(cls_id, str(cls_id))] and the
    [int(...)] of the corner coordinates. [conf] is in thousandths. *)
Record box := { cls_label : string; conf : Z; xyxy : Z * Z * Z * Z }.

(** An entry of [persistent_detections]. *)
Record detection := { label : string; confidence : Z; bbox : Z * Z * Z * Z }.

Definition allowed_labels : list string := ["person"; "cat"; "dog"].

Definition label_in (l : string) (ls : list string) : bool :=
  existsb (String.eqb l) ls.

(** Lines 109-121 (headless) / 123-136 (GUI): the two nested loops that
    append the boxes with an allowed label. *)
Definition keep_box (b : box) : list detection :=
  if label_in (cls_label b) allowed_labels
  then [ {| label := cls_label b; confidence := conf b; bbox := xyxy b |} ]
  else [].

Definition collect (results : list (list box)) : list detection :=
  flat_map (fun r => flat_map keep_box r) results.

Record datetime := { hour : nat; minute : nat; second : nat }.

Definition two_digits (n : nat) : string :=
  let s := NilEmpty.string_of_uint (Nat.to_uint n) in
  match n with
  | O => "00"
  | _ => if Nat.ltb n 10 then String.append "0" s else s
  end.

Definition format_detection_time (t : datetime) : string :=
  (two_digits (hour t) ++ " horas, " ++ two_digits (minute t)
    ++ " minutos e " ++ two_digits (second t) ++ " segundos")%string.

(** Fields of [self], and the module global of [tts_player].  The two
    classes have the same fields; [motion_cooldown] of the GUI is never
    read and is left out. *)
Record state := {
  frame_skip : Z;
  frame_count : Z;
  last_saved_motion : Z;      (* last_saved_times["motion"] *)
  last_saved_person : Z;      (* last_saved_times["person"] *)
  motion_enabled : bool;
  motion_disabled_until : Z;
  persistent_detections : list detection;
  last_audio_time : Z         (* tts_player.last_audio_time *)
}.

(** [__init__], with the module global at its initial value. *)
Definition init : state :=
  {| frame_skip := 5; frame_count := 0;
     last_saved_motion := 0; last_saved_person := 0;
     motion_enabled := true; motion_disabled_until := 0;
     persistent_detections := []; last_audio_time := 0 |}.

Definition set_frame_count (n : Z) (s : state) : state :=
  {| frame_skip := frame_skip s; frame_count := n;
     last_saved_motion := last_saved_motion s;
     last_saved_person := last_saved_person s;
     motion_enabled := motion_enabled s;
     motion_disabled_until := motion_disabled_until s;
     persistent_detections := persistent_detections s;
     last_audio_time := last_audio_time s |}.

Definition set_last_saved_motion (t : Z) (s : state) : state :=
  {| frame_skip := frame_skip s; frame_count := frame_count s;
     last_saved_motion := t;
     last_saved_person := last_saved_person s;
     motion_enabled := motion_enabled s;
     motion_disabled_until := motion_disabled_until s;
     persistent_detections := persistent_detections s;
     last_audio_time := last_audio_time s |}.

Definition set_last_saved_person (t : Z) (s : state) : state :=
  {| frame_skip := frame_skip s; frame_count := frame_count s;
     last_saved_motion := last_saved_motion s;
     last_saved_person := t;
     motion_enabled := motion_enabled s;
     motion_disabled_until := motion_disabled_until s;
     persistent_detections := persistent_detections s;
     last_audio_time := last_audio_time s |}.

Definition set_motion_enabled (b : bool) (s : state) : state :=
  {| frame_skip := frame_skip s; frame_count := frame_count s;
     last_saved_motion := last_saved_motion s;
     last_saved_person := last_saved_person s;
     motion_enabled := b;
     motion_disabled_until := motion_disabled_until s;
     persistent_detections := persistent_detections s;
     last_audio_time := last_audio_time s |}.

Definition set_motion_disabled_until (t : Z) (s : state) : state :=
  {| frame_skip := frame_skip s; frame_count := frame_count s;
     last_saved_motion := last_saved_motion s;
     last_saved_person := last_saved_person s;
     motion_enabled := motion_enabled s;
     motion_disabled_until := t;
     persistent_detections := persistent_detections s;
     last_audio_time := last_audio_time s |}.

Definition set_persistent_detections (ds : list detection) (s : state) : state :=
  {| frame_skip := frame_skip s; frame_count := frame_count s;
     last_saved_motion := last_saved_motion s;
     last_saved_person := last_saved_person s;
     motion_enabled := motion_enabled s;
     motion_disabled_until := motion_disabled_until s;
     persistent_detections := ds;
     last_audio_time := last_audio_time s |}.

Definition set_last_audio_time (t : Z) (s : state) : state :=
  {| frame_skip := frame_skip s; frame_count := frame_count s;
     last_saved_motion := last_saved_motion s;
     last_saved_person := last_saved_person s;
     motion_enabled := motion_enabled s;
     motion_disabled_until := motion_disabled_until s;
     persistent_detections := persistent_detections s;
     last_audio_time := t |}.

(** The call site of a [play_gtts_text] call. *)
Inductive alert := person_alert | animal_alert | motion_alert.

Inductive event :=
| model_call                               (* results = model(frame) *)
| play_gtts (a : alert) (text : string) (cooldown speed : Z)
            (fx : list tts_player.effect)  (* play_gtts_text(...) and what it did *)
| save_frame (folder prefix : string) (drawn : list detection)
                                           (* save_frame(frame, folder, prefix) *)
| motion_apply.                            (* motion_detector.apply(frame) and the contour test *)

Inductive exn := ZeroDivisionError | DetectorError.

(** The answers of the outside world during one frame. *)
Record frame_input := {
  current_time : Z;                      (* time.time() of the frame *)
  results : option (list (list box));    (* model(frame); None: it raises *)
  detection_time : datetime;             (* datetime.now() of the alert text *)
  alert_clock : Z;                       (* time.time() inside the person/animal play_gtts_text *)
  significant_motion : bool;             (* any(contourArea > 500) *)
  motion_time : datetime;                (* datetime.now() of the motion text *)
  motion_clock : Z                       (* time.time() inside the motion play_gtts_text *)
}.

Definition MOTION_FRAMES_DIR : string := "motion_frames_detected".
Definition PERSON_FRAMES_DIR : string := "person_frames_detected".

Definition is_nil {A} (l : list A) : bool :=
  match l with [] => true | _ :: _ => false end.

(** A call of [play_gtts_text] from the loop. *)
Definition speak (a : alert) (text : string) (cooldown speed clock : Z)
    (s : state) : state * list event :=
  let r := tts_player.play_gtts_text text cooldown speed clock (last_audio_time s) in
  (set_last_audio_time (fst r) s, [play_gtts a text cooldown speed (snd r)]).

Definition text_person (f : frame_input) : string :=
  ("Pessoa detectada às " ++ format_detection_time (detection_time f) ++ ".")%string.
Definition text_animal (f : frame_input) : string :=
  ("Animal detectado às " ++ format_detection_time (detection_time f) ++ ".")%string.

(** What processing one frame leaves behind: the state (mutated in place,
    so also there when an exception leaves the frame), the events, and the
    exception that left the frame, if any. *)
Record result := { post : state; trace : list event; raised : option exn }.

Definition ok (s : state) (ev : list event) : result :=
  {| post := s; trace := ev; raised := None |}.
Definition raise (e : exn) (s : state) (ev : list event) : result :=
  {| post := s; trace := ev; raised := Some e |}.

(** How a loop over the frame source ends. [running]: the reads given to
    the model are used up and the loop is still going. [read_failed]
    (headless only): [ret] was false, the loop did [break] and released the
    source. [crashed e]: the exception [e] left the frame; nothing in
    either loop catches it (headless catches [KeyboardInterrupt] alone and
    releases the source on the way out; in the GUI the next [update] is
    never scheduled). *)
Inductive ending := running | read_failed | crashed (e : exn).

(** ** headless.py *)

Module headless.

(** Lines 132-140: the [for] loop with its two [break]s. *)
Fixpoint alert_loop (ds : list detection) (f : frame_input) (s : state)
    : state * list event :=
  match ds with
  | [] => (s, [])
  | detection :: rest =>
      if String.eqb (label detection) "person" then
        let '(s1, ev) :=
          speak person_alert (text_person f) 3000 171 (alert_clock f) s in
        (set_motion_disabled_until (current_time f + 20000)
           (set_motion_enabled false s1), ev)
      else if label_in (label detection) ["cat"; "dog"] then
        speak animal_alert (text_animal f) 3000 171 (alert_clock f) s
      else alert_loop rest f s
  end.

(** Lines 103-140. [frame_count % frame_skip] raises when [frame_skip]
    is 0 and otherwise has the sign of the divisor, as [Z.modulo]. *)
Definition detect (f : frame_input) (s : state) : result :=
  if frame_skip s =? 0 then raise ZeroDivisionError s []
  else if frame_count s mod frame_skip s =? 0 then
    match results f with
    | None => raise DetectorError s [model_call]
    | Some rs =>
        let s1 := set_persistent_detections (collect rs) s in
        let '(s2, ev) :=
          if is_nil (persistent_detections s1) then (s1, [])
          else alert_loop (persistent_detections s1) f s1 in
        ok s2 (model_call :: ev)
    end
  else ok s [].

(** Lines 145-161: the boxes of the cache are drawn on [frame]. *)
Definition draw (s : state) : list detection := persistent_detections s.

(** Lines 167-169. *)
Definition save_person (f : frame_input) (drawn : list detection) (s : state)
    : state * list event :=
  if negb (is_nil (persistent_detections s))
     && (200 <=? current_time f - last_saved_person s)
  then (set_last_saved_person (current_time f) s,
        [save_frame PERSON_FRAMES_DIR "person_pet" drawn])
  else (s, []).

(** Lines 174-192. *)
Definition motion (f : frame_input) (drawn : list detection) (s : state)
    : state * list event :=
  if motion_enabled s then
    if significant_motion f
       && (200 <=? current_time f - last_saved_motion s) then
      let s1 := set_last_saved_motion (current_time f) s in
      let '(s2, ev) :=
        speak motion_alert "Movimento detectado!" 10000 222 (motion_clock f) s1 in
      (s2, motion_apply :: save_frame MOTION_FRAMES_DIR "motion" drawn :: ev)
    else (s, [motion_apply])
  else if motion_disabled_until s <=? current_time f then
    (set_motion_enabled true s, [])
  else (s, []).

(** Lines 98-194: the body of the [while] loop after a successful read. *)
Definition frame (s : state) (f : frame_input) : result :=
  let r := detect f s in
  match raised r with
  | Some _ => r
  | None =>
      let s1 := post r in
      let drawn := draw s1 in
      let '(s2, ev2) := save_person f drawn s1 in
      let '(s3, ev3) := motion f drawn s2 in
      ok (set_frame_count (frame_count s3 + 1) s3) (trace r ++ ev2 ++ ev3)
  end.

(** Lines 92-204: [run], over the reads the source delivers ([None] is
    [ret = False]). Returns what each processed frame left behind. *)
Fixpoint run (reads : list (option frame_input)) (s : state)
    : list result * ending :=
  match reads with
  | [] => ([], running)
  | None :: _ => ([], read_failed)
  | Some f :: rest =>
      let r := frame s f in
      match raised r with
      | Some e => ([r], crashed e)
      | None => let '(rs, e) := run rest (post r) in (r :: rs, e)
      end
  end.

End headless.

(** ** GUI_webcam.py *)

Module GUI_webcam.

(** Lines 148-157: the animal branch is commented out, so the loop goes
    on to the first person entry. *)
Fixpoint alert_loop (ds : list detection) (f : frame_input) (s : state)
    : state * list event :=
  match ds with
  | [] => (s, [])
  | detection :: rest =>
      if String.eqb (label detection) "person" then
        let '(s1, ev) :=
          speak person_alert (text_person f) 5000 171 (alert_clock f) s in
        (set_motion_disabled_until (current_time f + 20000)
           (set_motion_enabled false s1), ev)
      else alert_loop rest f s
  end.

(** Lines 117-157. *)
Definition detect (f : frame_input) (s : state) : result :=
  if frame_skip s =? 0 then raise ZeroDivisionError s []
  else if frame_count s mod frame_skip s =? 0 then
    match results f with
    | None => raise DetectorError s [model_call]
    | Some rs =>
        let s1 := set_persistent_detections (collect rs) s in
        let '(s2, ev) :=
          if is_nil (persistent_detections s1) then (s1, [])
          else alert_loop (persistent_detections s1) f s1 in
        ok s2 (model_call :: ev)
    end
  else ok s [].

Definition motion_text (f : frame_input) : string :=
  ("Movimento detectado às " ++ format_detection_time (motion_time f) ++ ".")%string.

(** Lines 164-184. The frame has no box drawn on it yet. *)
Definition motion (f : frame_input) (drawn : list detection) (s : state)
    : state * list event :=
  if motion_enabled s then
    if significant_motion f then
      let s1 := set_last_saved_motion (current_time f) s in
      let '(s2, ev) :=
        speak motion_alert (motion_text f) 10000 161 (motion_clock f) s1 in
      (s2, motion_apply :: save_frame MOTION_FRAMES_DIR "motion" drawn :: ev)
    else (s, [motion_apply])
  else if motion_disabled_until s <=? current_time f then
    (set_motion_enabled true s, [])
  else (s, []).

(** Lines 189-209: the drawing loop; the person/pet save sits inside it,
    after the box of the current entry is drawn. *)
Fixpoint draw_loop (ds : list detection) (f : frame_input)
    (drawn : list detection) (s : state) : state * list event :=
  match ds with
  | [] => (s, [])
  | detection :: rest =>
      let drawn1 := drawn ++ [detection] in
      if negb (is_nil (persistent_detections s))
         && (200 <=? current_time f - last_saved_person s) then
        let s1 := set_last_saved_person (current_time f) s in
        let '(s2, ev) := draw_loop rest f drawn1 s1 in
        (s2, save_frame PERSON_FRAMES_DIR "person_pet" drawn1 :: ev)
      else draw_loop rest f drawn1 s
  end.

(** Lines 112-220: [update] after a successful read. *)
Definition update (s : state) (f : frame_input) : result :=
  let r := detect f s in
  match raised r with
  | Some _ => r
  | None =>
      let s1 := post r in
      let '(s2, ev2) := motion f [] s1 in
      let '(s3, ev3) := draw_loop (persistent_detections s2) f [] s2 in
      ok (set_frame_count (frame_count s3 + 1) s3) (trace r ++ ev2 ++ ev3)
  end.

(** [update] rescheduling itself with [window.after]: a failed read
    (lines 107-110) schedules the next call and returns; an exception
    leaves [update] before line 223, so no next call is scheduled. *)
Fixpoint mainloop (reads : list (option frame_input)) (s : state)
    : list result * ending :=
  match reads with
  | [] => ([], running)
  | None :: rest => mainloop rest s
  | Some f :: rest =>
      let r := update s f in
      match raised r with
      | Some e => ([r], crashed e)
      | None => let '(rs, e) := mainloop rest (post r) in (r :: rs, e)
      end
  end.

End GUI_webcam.

(** ** The two front ends side by side *)

Inductive program := GUI | Headless.

Definition step (p : program) : state -> frame_input -> result :=
  match p with
  | GUI => GUI_webcam.update
  | Headless => headless.frame
  end.

Definition loop (p : program) : list (option frame_input) -> state -> list result * ending :=
  match p with
  | GUI => GUI_webcam.mainloop
  | Headless => headless.run
  end.

(** The state a loop is in after the frames of [rs]. *)
Definition final (s : state) (rs : list result) : state :=
  last (map post rs) s.

(** ** Vocabulary of the properties *)

Definition is_person (d : detection) : bool := String.eqb (label d) "person".
Definition is_pet (d : detection) : bool := label_in (label d) ["cat"; "dog"].

(** The cache holds a person entry, at whatever position. *)
Definition has_person (ds : list detection) : bool := existsb is_person ds.

(** A person entry comes before every cat and dog entry. *)
Fixpoint person_before_pet (ds : list detection) : bool :=
  match ds with
  | [] => false
  | d :: rest =>
      if is_person d then true
      else if is_pet d then false
      else person_before_pet rest
  end.

(** A cat or dog entry comes before every person entry. *)
Fixpoint pet_before_person (ds : list detection) : bool :=
  match ds with
  | [] => false
  | d :: rest =>
      if is_person d then false
      else if is_pet d then true
      else pet_before_person rest
  end.

(** Every entry carries one of the allowed labels. *)
Definition all_allowed (ds : list detection) : Prop :=
  Forall (fun d => label_in (label d) allowed_labels = true) ds.

(** Events that are all person/pet saves. *)
Definition is_person_save (e : event) : bool :=
  match e with
  | save_frame d _ _ => String.eqb d PERSON_FRAMES_DIR
  | _ => false
  end.

(** The person entry a front end acts on: any person entry in the GUI,
    a person entry that no cat or dog entry precedes in the headless loop. *)
Definition person_found (p : program) (ds : list detection) : bool :=
  match p with
  | GUI => has_person ds
  | Headless => person_before_pet ds
  end.

(** The frame is one on which the detector is due. *)
Definition detector_frame (s : state) : bool :=
  frame_count s mod frame_skip s =? 0.

(** The frame is a detector frame whose fresh batch makes the front end
    act on a person. *)
Definition person_detected (p : program) (s : state) (f : frame_input) : bool :=
  detector_frame s &&
  match results f with
  | Some rs => person_found p (collect rs)
  | None => false
  end.

Definition is_model_call (e : event) : bool :=
  match e with model_call => true | _ => false end.
Definition is_motion_apply (e : event) : bool :=
  match e with motion_apply => true | _ => false end.

(** The detector was invoked during the frame. *)
Definition invoked (r : result) : bool := existsb is_model_call (trace r).
(** Motion sensing ran during the frame. *)
Definition sensed (r : result) : bool := existsb is_motion_apply (trace r).

Definition alert_eqb (a b : alert) : bool :=
  match a, b with
  | person_alert, person_alert => true
  | animal_alert, animal_alert => true
  | motion_alert, motion_alert => true
  | _, _ => false
  end.

(** The alert categories dispatched during the frame (the calls of
    [play_gtts_text]), and those that went past the cooldown. *)
Definition dispatched_of (e : event) : list alert :=
  match e with play_gtts a _ _ _ _ => [a] | _ => [] end.
Definition fired_of (e : event) : list alert :=
  match e with
  | play_gtts a _ _ _ (_ :: _) => [a]
  | _ => []
  end.
Definition dispatched (r : result) : list alert := flat_map dispatched_of (trace r).
Definition fired (r : result) : list alert := flat_map fired_of (trace r).

(** The person branch of the alert loop ran during the frame. *)
Definition acted_on_person (r : result) : bool :=
  existsb (alert_eqb person_alert) (dispatched r).

Definition is_detection_alert (a : alert) : bool :=
  match a with motion_alert => false | _ => true end.

(** The person and animal alerts dispatched during the frame. *)
Definition detection_alerts (r : result) : list alert :=
  filter is_detection_alert (dispatched r).

(** The frames saved to [folder] during the frame, each as the list of
    boxes drawn on the picture. *)
Definition saved_of (folder : string) (e : event) : list (list detection) :=
  match e with
  | save_frame d _ drawn => if String.eqb d folder then [drawn] else []
  | _ => []
  end.
Definition saved (folder : string) (r : result) : list (list detection) :=
  flat_map (saved_of folder) (trace r).

(** The alert the detection stage of a front end dispatches for a batch
    of allowed labels. *)
Definition choice (p : program) (ds : list detection) : option alert :=
  match p with
  | GUI => if has_person ds then Some person_alert else None
  | Headless =>
      match ds with
      | [] => None
      | d :: _ => Some (if is_person d then person_alert else animal_alert)
      end
  end.

(** The cooldown the detection stage passes to [play_gtts_text]. *)
Definition alert_cooldown (p : program) : Z :=
  match p with GUI => 5000 | Headless => 3000 end.

(** *** The throttles under the spec's [allow(category, now, cooldown)] *)

Inductive category := motion_save | person_save | alert_category (a : alert).

(** Where the code keeps [last_fired[category]]. *)
Definition last_fired (c : category) (s : state) : Z :=
  match c with
  | motion_save => last_saved_motion s
  | person_save => last_saved_person s
  | alert_category _ => last_audio_time s
  end.

(** The check-and-update of each category as the code performs it: the
    alerts through [play_gtts_text], the saves through the inline test of
    headless.py lines 167-169 and 182-184. *)
Definition allow (c : category) (now cooldown : Z) (s : state) : bool * state :=
  match c with
  | alert_category a =>
      let r := tts_player.play_gtts_text "" cooldown 100 now (last_audio_time s) in
      (tts_player.spoke r, set_last_audio_time (fst r) s)
  | motion_save =>
      if cooldown <=? now - last_saved_motion s
      then (true, set_last_saved_motion now s) else (false, s)
  | person_save =>
      if cooldown <=? now - last_saved_person s
      then (true, set_last_saved_person now s) else (false, s)
  end.

(** Two categories kept in the same variable. *)
Definition shared (c1 c2 : category) : bool :=
  match c1, c2 with
  | alert_category _, alert_category _ => true
  | _, _ => false
  end.

(** The spec's reading of a call sequence: call [(t, C)] is allowed iff
    [t - last_true_time >= C], where [last_true_time] is the time of the
    latest allowed call. *)
Fixpoint allow_sequence (cs : list (Z * Z)) (last_true_time : Z) : list bool :=
  match cs with
  | [] => []
  | (t, C) :: rest =>
      let b := C <=? t - last_true_time in
      b :: allow_sequence rest (if b then t else last_true_time)
  end.

Fixpoint last_true_time (cs : list (Z * Z)) (start : Z) : Z :=
  match cs with
  | [] => start
  | (t, C) :: rest => last_true_time rest (if C <=? t - start then t else start)
  end.

(** Two lists of file names with no name in common. *)
Definition disjoint (xs ys : list string) : Prop :=
  forall x, In x xs -> ~ In x ys.

(** ** Concrete inputs used below *)

Definition noon : datetime := {| hour := 12; minute := 0; second := 5 |}.

Definition person_box : box :=
  {| cls_label := "person"; conf := 900; xyxy := (10, 10, 50, 50) |}.
Definition cat_box : box :=
  {| cls_label := "cat"; conf := 950; xyxy := (60, 60, 90, 90) |}.
Definition chair_box : box :=
  {| cls_label := "chair"; conf := 800; xyxy := (0, 0, 5, 5) |}.

Definition person_det : detection :=
  {| label := "person"; confidence := 900; bbox := (10, 10, 50, 50) |}.
Definition cat_det : detection :=
  {| label := "cat"; confidence := 950; bbox := (60, 60, 90, 90) |}.

(** A frame at time [t] (all clock readings of the frame equal to [t]). *)
Definition frame_at (t : Z) (res : option (list (list box))) (moving : bool)
    : frame_input :=
  {| current_time := t; results := res; detection_time := noon;
     alert_clock := t; significant_motion := moving;
     motion_time := noon; motion_clock := t |}.

(** A state in the middle of a run. *)
Definition mk_state (count : Z) (enabled : bool) (until : Z)
    (cache : list detection) (audio saved_motion : Z) : state :=
  {| frame_skip := 5; frame_count := count;
     last_saved_motion := saved_motion; last_saved_person := 0;
     motion_enabled := enabled; motion_disabled_until := until;
     persistent_detections := cache; last_audio_time := audio |}.

(** ** save_frame and save_log

    Lines 34-56 of headless.py and 36-58 of GUI_webcam.py (the two files
    define them alike).  [strftime] prints each field of [datetime.now()]
    zero padded on a fixed number of digits; the model prints the last
    [w] digits, which is what [strftime] gives for the years 1000-9999. *)

Record stamp := {
  year : N; month : N; day : N;
  time_of_day : datetime;
  microsecond : N
}.

Definition digit (n : N) : Ascii.ascii := Ascii.ascii_of_N (48 + N.modulo n 10).

Fixpoint zero_padded (w : nat) (n : N) : string :=
  match w with
  | O => EmptyString
  | S w' => String.append (zero_padded w' (N.div n 10)) (String (digit n) EmptyString)
  end.

(** [strftime("%Y%m%d_%H%M%S")], the time stamp of [save_log]. *)
Definition strftime_seconds (t : stamp) : string :=
  (zero_padded 4 (year t) ++ zero_padded 2 (month t) ++ zero_padded 2 (day t)
   ++ "_" ++ zero_padded 2 (N.of_nat (hour (time_of_day t)))
   ++ zero_padded 2 (N.of_nat (minute (time_of_day t)))
   ++ zero_padded 2 (N.of_nat (second (time_of_day t))))%string.

(** [strftime("%Y%m%d_%H%M%S_%f")]. *)
Definition strftime_micro (t : stamp) : string :=
  (strftime_seconds t ++ "_" ++ zero_padded 6 (microsecond t))%string.

(** The slice [s[:-k]]. *)
Definition drop_last (k : nat) (s : string) : string :=
  substring 0 (String.length s - k) s.

(** The path separator, the character [/]. *)
Definition sep : Ascii.ascii := Ascii.ascii_of_nat 47.

Definition starts_with_sep (s : string) : bool :=
  match s with
  | String c _ => Ascii.eqb c sep
  | EmptyString => false
  end.

Fixpoint ends_with_sep (s : string) : bool :=
  match s with
  | EmptyString => false
  | String c EmptyString => Ascii.eqb c sep
  | String _ rest => ends_with_sep rest
  end.

(** [os.path.join(a, b)] on POSIX. *)
Definition os_path_join (a b : string) : string :=
  if starts_with_sep b then b
  else if match a with EmptyString => true | _ => false end || ends_with_sep a then (a ++ b)%string
  else (a ++ String sep b)%string.

(** Line 38 / 40: the file name of a saved frame. *)
Definition frame_filename (folder prefix : string) (t : stamp) : string :=
  os_path_join folder
    (prefix ++ "_" ++ drop_last 3 (strftime_micro t) ++ ".jpg")%string.

(** Line 51 / 53: the file name of a log entry. *)
Definition log_filename (folder prefix : string) (t : stamp) : string :=
  os_path_join folder (prefix ++ "_" ++ strftime_seconds t ++ ".log")%string.

(** What [cv2.imwrite] and [open] do. *)
Inductive io_outcome := io_done | io_refused | io_raised.

Inductive printed :=
| Frame_saved (filename : string)
| Failed_to_save_frame (filename : string)
| Error_saving_frame
| Log_saved (filename : string)
| Error_saving_log.

(** The files of a folder tree, each with its content. *)
Definition disk (A : Type) := string -> option A.

Definition write_file {A} (path : string) (content : A) (d : disk A) : disk A :=
  fun p => if String.eqb p path then Some content else d p.

(** [save_frame(frame, folder, prefix)]: the picture is written under the
    time-stamped name when [cv2.imwrite] succeeds; a refusal and an
    exception are printed and nothing else happens. *)
Definition save_frame_call (picture : list detection) (folder prefix : string)
    (t : stamp) (imwrite : io_outcome) (d : disk (list detection))
    : disk (list detection) * printed :=
  let filename := frame_filename folder prefix t in
  match imwrite with
  | io_done => (write_file filename picture d, Frame_saved filename)
  | io_refused => (d, Failed_to_save_frame filename)
  | io_raised => (d, Error_saving_frame)
  end.

(** [save_log(log_message, folder, prefix)]: [open(..., "w")] replaces the
    file, then the message and a newline are written. *)
Definition newline : string := String (Ascii.ascii_of_nat 10) EmptyString.

Definition save_log (log_message folder prefix : string) (t : stamp)
    (opened : io_outcome) (d : disk string) : disk string * printed :=
  let filename := log_filename folder prefix t in
  match opened with
  | io_done => (write_file filename (log_message ++ newline)%string d, Log_saved filename)
  | _ => (d, Error_saving_log)
  end.

(** The fields of a [datetime] are in their ranges. *)
Definition valid_stamp (t : stamp) : Prop :=
  (year t < 10000 /\ month t < 100 /\ day t < 100 /\ microsecond t < 1000000)%N /\
  (hour (time_of_day t) < 100 /\ minute (time_of_day t) < 100 /\
   second (time_of_day t) < 100)%nat.

(** Two time stamps in the same millisecond. *)
Definition same_millisecond (t1 t2 : stamp) : Prop :=
  year t1 = year t2 /\ month t1 = month t2 /\ day t1 = day t2 /\
  time_of_day t1 = time_of_day t2 /\
  N.div (microsecond t1) 1000 = N.div (microsecond t2) 1000.

(** Two time stamps in the same second. *)
Definition same_second (t1 t2 : stamp) : Prop :=
  year t1 = year t2 /\ month t1 = month t2 /\ day t1 = day t2 /\
  time_of_day t1 = time_of_day t2.

(** ** More vocabulary *)

Definition to_detection (b : box) : detection :=
  {| label := cls_label b; confidence := conf b; bbox := xyxy b |}.

Definition box_allowed (b : box) : bool := label_in (cls_label b) allowed_labels.

(** The part of the state the detector cadence depends on. *)
Definition cadence (s : state) : Z * Z * list detection :=
  (frame_skip s, frame_count s, persistent_detections s).

(** The person/pet frames saved during the frame. *)
Definition person_saves (r : result) : list (list detection) :=
  saved PERSON_FRAMES_DIR r.

(** The times of the calls of a sequence that were allowed. *)
Fixpoint allowed_times (cs : list (Z * Z)) (bs : list bool) : list Z :=
  match cs, bs with
  | (t, _) :: cs', true :: bs' => t :: allowed_times cs' bs'
  | _ :: cs', false :: bs' => allowed_times cs' bs'
  | _, _ => []
  end.

(** Consecutive elements are at least [gap] apart. *)
Fixpoint spaced (gap : Z) (ts : list Z) : Prop :=
  match ts with
  | t1 :: ((t2 :: _) as rest) => t1 + gap <= t2 /\ spaced gap rest
  | _ => True
  end.

Definition is_some {A} (o : option A) : bool :=
  match o with Some _ => true | None => false end.

(** [self.frame_skip = n], the one setting the source invites to change
    ("try setting this to 1"). *)
Definition set_frame_skip (n : Z) (s : state) : state :=
  {| frame_skip := n; frame_count := frame_count s;
     last_saved_motion := last_saved_motion s;
     last_saved_person := last_saved_person s;
     motion_enabled := motion_enabled s;
     motion_disabled_until := motion_disabled_until s;
     persistent_detections := persistent_detections s;
     last_audio_time := last_audio_time s |}.

(** Whether a result completed its frame. *)
Definition completed (r : result) : bool := negb (is_some (raised r)).

(** What the two front ends have in common after a frame. *)
Definition cadence_view (r : result) : Z * Z * list detection * option exn * bool :=
  (cadence (post r), raised r, invoked r).

(** Two saves at 09:05:07 on 3 November 2026, 12.345 ms and 12.999 ms into
    the second, and one a millisecond later. *)
Definition stamp_a : stamp :=
  {| year := 2026; month := 11; day := 3;
     time_of_day := {| hour := 9; minute := 5; second := 7 |};
     microsecond := 12345 |}.
Definition stamp_b : stamp :=
  {| year := 2026; month := 11; day := 3;
     time_of_day := {| hour := 9; minute := 5; second := 7 |};
     microsecond := 12999 |}.
Definition stamp_c : stamp :=
  {| year := 2026; month := 11; day := 3;
     time_of_day := {| hour := 9; minute := 5; second := 7 |};
     microsecond := 13000 |}.

Definition empty_disk {A} : disk A := fun _ => None.

(** *** Sequences of requests, per category and per store *)

Definition category_eqb (c1 c2 : category) : bool :=
  match c1, c2 with
  | motion_save, motion_save => true
  | person_save, person_save => true
  | alert_category a, alert_category b => alert_eqb a b
  | _, _ => false
  end.

(** Two categories whose [last_fired] is the same variable of the code. *)
Definition same_store (c1 c2 : category) : bool :=
  category_eqb c1 c2 || shared c1 c2.

(** The assignment a check-and-update of category [c] performs when it
    goes through. *)
Definition write_last_fired (c : category) (t : Z) (s : state) : state :=
  match c with
  | motion_save => set_last_saved_motion t s
  | person_save => set_last_saved_person t s
  | alert_category _ => set_last_audio_time t s
  end.

(** A sequence of requests [(category, now, cooldown)] through the
    check-and-update of the code. *)
Fixpoint requests (cs : list (category * Z * Z)) (s : state) : list bool :=
  match cs with
  | [] => []
  | (c, t, C) :: rest =>
      fst (allow c t C s) :: requests rest (snd (allow c t C s))
  end.

(** The same sequence as the spec words it: every category has a
    [last_fired] of its own. *)
Fixpoint allow_per_category (cs : list (category * Z * Z))
    (last : category -> Z) : list bool :=
  match cs with
  | [] => []
  | (c, t, C) :: rest =>
      let b := C <=? t - last c in
      b :: allow_per_category rest
             (fun c' => if b && category_eqb c c' then t else last c')
  end.

(** The same sequence with one [last_fired] per store. *)
Fixpoint allow_per_store (cs : list (category * Z * Z))
    (last : category -> Z) : list bool :=
  match cs with
  | [] => []
  | (c, t, C) :: rest =>
      let b := C <=? t - last c in
      b :: allow_per_store rest
             (fun c' => if b && same_store c c' then t else last c')
  end.

(** * Properties *)

(** ** The audio throttle of tts_player.py *)

Lemma play_gtts_text_spoke text cooldown speed now last :
  tts_player.spoke (tts_player.play_gtts_text text cooldown speed now last) = true
  <-> cooldown <= now - last.
Proof.
  unfold tts_player.play_gtts_text, tts_player.spoke.
  destruct (Z.ltb_spec (now - last) cooldown); simpl; split; intros; try lia; congruence.
Qed.

Lemma play_gtts_text_spoke_false text cooldown speed now last :
  tts_player.spoke (tts_player.play_gtts_text text cooldown speed now last) = false
  <-> now - last < cooldown.
Proof.
  unfold tts_player.play_gtts_text, tts_player.spoke.
  destruct (Z.ltb_spec (now - last) cooldown); simpl; split; intros; try lia; congruence.
Qed.

Lemma play_gtts_text_update text cooldown speed now last :
  tts_player.spoke (tts_player.play_gtts_text text cooldown speed now last) = true ->
  fst (tts_player.play_gtts_text text cooldown speed now last) = now.
Proof.
  unfold tts_player.play_gtts_text, tts_player.spoke.
  destruct (now - last <? cooldown); simpl; congruence.
Qed.

Lemma play_gtts_text_quiet text cooldown speed now last :
  tts_player.spoke (tts_player.play_gtts_text text cooldown speed now last) = false ->
  tts_player.play_gtts_text text cooldown speed now last = (last, []).
Proof.
  unfold tts_player.play_gtts_text, tts_player.spoke.
  destruct (now - last <? cooldown); simpl; congruence.
Qed.

Lemma play_gtts_text_effects text cooldown speed now last :
  tts_player.spoke (tts_player.play_gtts_text text cooldown speed now last) = true ->
  snd (tts_player.play_gtts_text text cooldown speed now last) =
  [ tts_player.gTTS_save text tts_player.original_audio;
    tts_player.ffmpeg tts_player.original_audio speed tts_player.adjusted_audio;
    tts_player.Thread_start tts_player.adjusted_audio;
    tts_player.os_remove tts_player.original_audio ].
Proof.
  unfold tts_player.play_gtts_text, tts_player.spoke.
  destruct (now - last <? cooldown); simpl; congruence.
Qed.

Lemma calls_allow_sequence text speed cs :
  forall last,
    tts_player.calls text speed cs last
    = (allow_sequence cs last, last_true_time cs last).
Proof.
  induction cs as [|[t C] rest IH]; intros last; simpl; [reflexivity|].
  unfold tts_player.play_gtts_text at 1 2.
  rewrite Z.leb_antisym.
  destruct (t - last <? C); simpl; rewrite IH; reflexivity.
Qed.

Lemma save_person_throttle f drawn s :
  let r := headless.save_person f drawn s in
  (snd r <> [] <->
   persistent_detections s <> [] /\ 200 <= current_time f - last_saved_person s) /\
  (snd r <> [] ->
   fst r = set_last_saved_person (current_time f) s /\
   snd r = [save_frame PERSON_FRAMES_DIR "person_pet" drawn]) /\
  (snd r = [] -> fst r = s).
Proof.
  unfold headless.save_person.
  destruct (persistent_detections s) as [|d ds] eqn:E; simpl.
  - repeat split; intros; try congruence; tauto.
  - destruct (Z.leb_spec 200 (current_time f - last_saved_person s)); simpl;
      repeat split; intros; try congruence; try lia; tauto.
Qed.


(** ** Temporary files of the audio routine *)

(** Counterexample to C8 as stated: two invocations of the audio routine
    (a person alert, then a motion alert ten seconds later) write the very
    same two file names. *)
Lemma temporary_names_shared :
  let r1 := tts_player.play_gtts_text "Pessoa detectada" 3000 171 10000 0 in
  let r2 := tts_player.play_gtts_text "Movimento detectado!" 10000 222 20000 (fst r1) in
  tts_player.spoke r1 = true /\ tts_player.spoke r2 = true /\
  tts_player.files_written (snd r1) = tts_player.files_written (snd r2) /\
  ~ disjoint (tts_player.files_written (snd r1)) (tts_player.files_written (snd r2)).
Proof.
  cbv zeta. repeat split.
  intros D. apply (D tts_player.original_audio); simpl; auto.
Qed.

(** C8, amended. Every invocation that goes past the cooldown writes the
    two fixed names [detection_sound_original.mp3] and
    [detection_sound_adjusted.mp3] and deletes those same two (the adjusted
    one from its playback thread, the original one itself); an invocation
    stopped by the cooldown touches no file. *)
Theorem temporary_names_fixed text cooldown speed now last :
  let r := tts_player.play_gtts_text text cooldown speed now last in
  (tts_player.spoke r = true ->
   tts_player.files_written (snd r)
   = [tts_player.original_audio; tts_player.adjusted_audio] /\
   tts_player.files_deleted (snd r)
   = [tts_player.adjusted_audio; tts_player.original_audio]) /\
  (tts_player.spoke r = false ->
   tts_player.files_written (snd r) = [] /\ tts_player.files_deleted (snd r) = []).
Proof.
  cbv zeta. split; intros H.
  - rewrite (play_gtts_text_effects _ _ _ _ _ H). split; reflexivity.
  - rewrite (play_gtts_text_quiet _ _ _ _ _ H). split; reflexivity.
Qed.

Lemma temporary_names_fixed_witness :
  tts_player.files_written
    (snd (tts_player.play_gtts_text "Pessoa detectada" 3000 171 10000 0))
  = [tts_player.original_audio; tts_player.adjusted_audio].
Proof.
  apply (proj1 (temporary_names_fixed "Pessoa detectada" 3000 171 10000 0)).
  reflexivity.
Defined.

(** ** Independence of the throttle categories *)

Lemma allow_iff c now cooldown s :
  fst (allow c now cooldown s) = true <-> cooldown <= now - last_fired c s.
Proof.
  destruct c; simpl.
  - destruct (Z.leb_spec cooldown (now - last_saved_motion s)); simpl;
      split; intros; try lia; congruence.
  - destruct (Z.leb_spec cooldown (now - last_saved_person s)); simpl;
      split; intros; try lia; congruence.
  - apply play_gtts_text_spoke.
Qed.

Lemma allow_sets c now cooldown s :
  fst (allow c now cooldown s) = true ->
  last_fired c (snd (allow c now cooldown s)) = now.
Proof.
  destruct c; simpl.
  - destruct (cooldown <=? now - last_saved_motion s); simpl; congruence.
  - destruct (cooldown <=? now - last_saved_person s); simpl; congruence.
  - apply play_gtts_text_update.
Qed.

(** Counterexample to C1 as stated: motion-alert and person-alert are
    distinct categories, a motion-alert allowed at 100 s moves the
    [last_fired] of person-alert, and the person-alert asked for one second
    later is refused although it would have been allowed without the
    motion-alert.  The same in the headless loop: a motion-alert fires on
    the skipped frame 4, and on the detector frame 5, one second later, the
    person-alert is dispatched and refused. *)
Lemma motion_alert_blocks_person_alert :
  let s1 := snd (allow (alert_category motion_alert) 100000 10000 init) in
  alert_category motion_alert <> alert_category person_alert /\
  fst (allow (alert_category motion_alert) 100000 10000 init) = true /\
  last_fired (alert_category person_alert) s1
    <> last_fired (alert_category person_alert) init /\
  fst (allow (alert_category person_alert) 101000 3000 s1) = false /\
  fst (allow (alert_category person_alert) 101000 3000 init) = true /\
  map fired
    (fst (headless.run
            [Some (frame_at 100000 None true);
             Some (frame_at 101000 (Some [[person_box]]) false)]
            (mk_state 4 true 0 [] 0 0)))
  = [[motion_alert]; []] /\
  map dispatched
    (fst (headless.run
            [Some (frame_at 100000 None true);
             Some (frame_at 101000 (Some [[person_box]]) false)]
            (mk_state 4 true 0 [] 0 0)))
  = [[motion_alert]; [person_alert]].
Proof.
  cbv zeta. repeat split; try discriminate; try (vm_compute; congruence).
Qed.

(** C1, amended. A successful allow of one category leaves the
    [last_fired] of every other category unchanged, except among the three
    alert categories: they are kept in the one variable [last_audio_time],
    so a successful alert of one sets the [last_fired] of the other two to
    [now] as well.  The two save categories are independent of each other
    and of the alerts. *)
Theorem throttle_categories c1 c2 now cooldown s :
  c1 <> c2 ->
  fst (allow c1 now cooldown s) = true ->
  last_fired c2 (snd (allow c1 now cooldown s))
  = if shared c1 c2 then now else last_fired c2 s.
Proof.
  intros Hne Hok.
  destruct c1, c2; try congruence; simpl in *;
    try (destruct (cooldown <=? now - last_saved_motion s); reflexivity);
    try (destruct (cooldown <=? now - last_saved_person s); reflexivity).
  apply play_gtts_text_update; assumption.
Qed.

Lemma throttle_categories_witness :
  last_fired person_save
    (snd (allow (alert_category motion_alert) 100000 10000 init))
  = last_fired person_save init /\
  last_fired (alert_category person_alert)
    (snd (allow (alert_category motion_alert) 100000 10000 init))
  = 100000.
Proof.
  split.
  - apply (throttle_categories (alert_category motion_alert) person_save
             100000 10000 init); [discriminate | reflexivity].
  - apply (throttle_categories (alert_category motion_alert)
             (alert_category person_alert) 100000 10000 init);
      [discriminate | reflexivity].
Defined.

(** ** The stages of a frame *)

Lemma collect_all_allowed rs : all_allowed (collect rs).
Proof.
  unfold all_allowed, collect.
  apply Forall_forall. intros d Hd.
  apply in_flat_map in Hd. destruct Hd as [r [_ Hd]].
  apply in_flat_map in Hd. destruct Hd as [b [_ Hd]].
  unfold keep_box in Hd.
  destruct (label_in (cls_label b) allowed_labels) eqn:E; simpl in Hd.
  - destruct Hd as [<-|[]]. exact E.
  - destruct Hd.
Qed.

Lemma allowed_person_or_pet d :
  label_in (label d) allowed_labels = true ->
  is_person d = false -> is_pet d = true.
Proof.
  unfold is_person, is_pet, label_in, allowed_labels. simpl.
  intros H Hp. rewrite Hp in H. exact H.
Qed.

Lemma person_before_pet_has_person ds :
  person_before_pet ds = true -> has_person ds = true.
Proof.
  induction ds as [|d rest IH]; simpl; [congruence|].
  destruct (is_person d); simpl; [reflexivity|].
  destruct (is_pet d); [congruence | exact IH].
Qed.

Lemma person_found_has_person p ds :
  person_found p ds = true -> has_person ds = true.
Proof.
  destruct p; simpl; [tauto | apply person_before_pet_has_person].
Qed.

(** The [for] loop of headless.py without its recursion. *)
Lemma headless_alert_loop ds f s :
  headless.alert_loop ds f s =
  if person_before_pet ds then
    (set_motion_disabled_until (current_time f + 20000)
       (set_motion_enabled false
          (fst (speak person_alert (text_person f) 3000 171 (alert_clock f) s))),
     snd (speak person_alert (text_person f) 3000 171 (alert_clock f) s))
  else if pet_before_person ds then
    speak animal_alert (text_animal f) 3000 171 (alert_clock f) s
  else (s, []).
Proof.
  induction ds as [|d rest IH]; [reflexivity|].
  cbn [headless.alert_loop person_before_pet pet_before_person].
  unfold is_person, is_pet.
  destruct (String.eqb (label d) "person"); [reflexivity|].
  destruct (label_in (label d) ["cat"; "dog"]); [reflexivity | exact IH].
Qed.

(** The [for] loop of GUI_webcam.py without its recursion. *)
Lemma GUI_alert_loop ds f s :
  GUI_webcam.alert_loop ds f s =
  if has_person ds then
    (set_motion_disabled_until (current_time f + 20000)
       (set_motion_enabled false
          (fst (speak person_alert (text_person f) 5000 171 (alert_clock f) s))),
     snd (speak person_alert (text_person f) 5000 171 (alert_clock f) s))
  else (s, []).
Proof.
  induction ds as [|d rest IH]; [reflexivity|].
  cbn [GUI_webcam.alert_loop has_person existsb].
  unfold is_person at 1.
  destruct (String.eqb (label d) "person"); [reflexivity | exact IH].
Qed.

Lemma all_allowed_pet_first ds :
  all_allowed ds -> ds <> [] ->
  person_before_pet ds = false -> pet_before_person ds = true.
Proof.
  intros Hall Hne. destruct ds as [|d rest]; [congruence|]. simpl.
  inversion Hall as [|? ? Hd _]; subst.
  destruct (is_person d) eqn:Ep; [congruence|].
  rewrite (allowed_person_or_pet d Hd Ep). reflexivity.
Qed.

(** The drawing loop of the GUI touches [last_saved_times["person"]] alone
    and only saves person/pet frames. *)
Lemma GUI_draw_loop ds f :
  forall drawn s,
    fst (GUI_webcam.draw_loop ds f drawn s)
    = set_last_saved_person
        (last_saved_person (fst (GUI_webcam.draw_loop ds f drawn s))) s /\
    forallb is_person_save (snd (GUI_webcam.draw_loop ds f drawn s)) = true.
Proof.
  induction ds as [|d rest IH]; intros drawn s; simpl.
  - split; [destruct s; reflexivity | reflexivity].
  - destruct (negb (is_nil (persistent_detections s))
              && (200 <=? current_time f - last_saved_person s)).
    + specialize (IH (drawn ++ [d]) (set_last_saved_person (current_time f) s)).
      destruct (GUI_webcam.draw_loop rest f (drawn ++ [d])
                  (set_last_saved_person (current_time f) s)) as [s2 ev].
      simpl in *. destruct IH as [IH1 IH2]. split; [|exact IH2].
      rewrite IH1 at 1. reflexivity.
    + apply IH.
Qed.

Lemma person_saves_not_model ev :
  forallb is_person_save ev = true -> existsb is_model_call ev = false.
Proof.
  induction ev as [|e ev IH]; simpl; [reflexivity|].
  intros H. apply andb_prop in H. destruct H as [He Hev].
  destruct e; simpl in *; try congruence; auto.
Qed.

Lemma person_saves_not_motion ev :
  forallb is_person_save ev = true -> existsb is_motion_apply ev = false.
Proof.
  induction ev as [|e ev IH]; simpl; [reflexivity|].
  intros H. apply andb_prop in H. destruct H as [He Hev].
  destruct e; simpl in *; try congruence; auto.
Qed.

Lemma person_saves_not_alert ev :
  forallb is_person_save ev = true ->
  flat_map dispatched_of ev = [] /\ flat_map fired_of ev = [].
Proof.
  induction ev as [|e ev IH]; simpl; [split; reflexivity|].
  intros H. apply andb_prop in H. destruct H as [He Hev].
  destruct e; simpl in *; try congruence; auto.
Qed.

Lemma person_saves_not_motion_save ev :
  forallb is_person_save ev = true ->
  flat_map (saved_of MOTION_FRAMES_DIR) ev = [].
Proof.
  induction ev as [|e ev IH]; simpl; [reflexivity|].
  intros H. apply andb_prop in H. destruct H as [He Hev].
  destruct e; simpl in *; try congruence.
  apply String.eqb_eq in He. subst folder. simpl. auto.
Qed.

(** ** One frame, case by case *)

Lemma play_gtts_text_leb text cooldown speed now last :
  tts_player.play_gtts_text text cooldown speed now last =
  if cooldown <=? now - last then
    (now,
     [ tts_player.gTTS_save text tts_player.original_audio;
       tts_player.ffmpeg tts_player.original_audio speed tts_player.adjusted_audio;
       tts_player.Thread_start tts_player.adjusted_audio;
       tts_player.os_remove tts_player.original_audio ])
  else (last, []).
Proof.
  unfold tts_player.play_gtts_text. rewrite Z.leb_antisym.
  destruct (now - last <? cooldown); reflexivity.
Qed.

Ltac fields :=
  cbn [frame_skip frame_count last_saved_motion last_saved_person
       motion_enabled motion_disabled_until persistent_detections
       last_audio_time set_frame_count set_last_saved_motion
       set_last_saved_person set_motion_enabled set_motion_disabled_until
       set_persistent_detections set_last_audio_time
       post trace raised fst snd] in *.

Ltac break_if :=
  match goal with
  | H : ?b = true |- context [if ?b then _ else _] => rewrite H
  | H : ?b = false |- context [if ?b then _ else _] => rewrite H
  | H : ?o = Some _ |- context [match ?o with Some _ => _ | None => _ end] =>
      rewrite H
  | H : ?o = None |- context [match ?o with Some _ => _ | None => _ end] =>
      rewrite H
  | |- context [if ?b then _ else _] =>
      lazymatch b with
      | context [raised _] => fail
      | context [post _] => fail
      | _ => destruct b eqn:?
      end
  | |- context [match ?o with Some _ => _ | None => _ end] =>
      lazymatch o with
      | context [raised _] => fail
      | context [post _] => fail
      | _ => destruct o eqn:?
      end
  end.

Ltac unroll_draw_loop :=
  match goal with
  | |- context [GUI_webcam.draw_loop ?ds ?f ?dr ?s] =>
      let H := fresh "Hdraw" in
      let s3 := fresh "s3" in
      let ev3 := fresh "ev3" in
      let Hs := fresh "Hs3" in
      let Hev := fresh "Hev3" in
      pose proof (GUI_draw_loop ds f dr s) as H;
      destruct (GUI_webcam.draw_loop ds f dr s) as [s3 ev3];
      cbn [fst snd] in H; destruct H as [Hs Hev]; rewrite Hs; clear Hs
  end.

Ltac use_person_saves :=
  repeat match goal with
  | H : forallb is_person_save ?ev = true |- _ =>
      rewrite ?(person_saves_not_model _ H), ?(person_saves_not_motion _ H),
        ?(proj1 (person_saves_not_alert _ H)), ?(proj2 (person_saves_not_alert _ H)),
        ?(person_saves_not_motion_save _ H);
      clear H
  end.

Ltac frame_cases :=
  unfold step, headless.frame, headless.detect, headless.save_person,
    headless.motion, headless.draw,
    GUI_webcam.update, GUI_webcam.detect, GUI_webcam.motion, ok, raise, speak;
  cbv zeta; fields;
  repeat (first [ rewrite headless_alert_loop
                | rewrite GUI_alert_loop
                | rewrite play_gtts_text_leb
                | break_if ];
          unfold speak; cbv zeta; fields; try congruence);
  try unroll_draw_loop;
  fields.

Ltac observe :=
  unfold invoked, sensed, detection_alerts, dispatched, fired, saved;
  fields;
  repeat rewrite flat_map_app; repeat rewrite existsb_app;
  cbn [app flat_map existsb filter is_model_call is_motion_apply dispatched_of
       fired_of is_detection_alert orb];
  repeat rewrite flat_map_app; repeat rewrite existsb_app;
  use_person_saves;
  cbn [app flat_map existsb filter is_model_call is_motion_apply dispatched_of
       fired_of is_detection_alert orb].

Ltac leb_hyps :=
  repeat match goal with
  | H : (_ <=? _) = true |- _ => apply Z.leb_le in H
  | H : (_ <=? _) = false |- _ => apply Z.leb_gt in H
  end.

Ltac finish :=
  repeat split; try reflexivity; try congruence;
  try (exfalso; leb_hyps; lia).

Lemma step_skipped p s f :
  frame_skip s <> 0 -> frame_count s mod frame_skip s <> 0 ->
  let r := step p s f in
  raised r = None /\ invoked r = false /\
  persistent_detections (post r) = persistent_detections s /\
  frame_count (post r) = frame_count s + 1 /\
  frame_skip (post r) = frame_skip s /\
  detection_alerts r = [] /\
  motion_disabled_until (post r) = motion_disabled_until s /\
  motion_enabled (post r)
  = (if motion_enabled s then true
     else motion_disabled_until s <=? current_time f) /\
  sensed r = motion_enabled s /\
  (motion_enabled s = false -> dispatched r = []) /\
  ((fired r = [] /\ last_audio_time (post r) = last_audio_time s) \/
   (fired r = [motion_alert] /\ sensed r = true /\
    last_audio_time (post r) = motion_clock f)).
Proof.
  intros H0 Hm. cbv zeta.
  apply Z.eqb_neq in H0, Hm.
  destruct p; frame_cases; observe;
    repeat (split; [finish|]); first [solve [left; finish] | solve [right; finish]].
Qed.

Lemma step_detector_fails p s f :
  frame_skip s <> 0 -> frame_count s mod frame_skip s = 0 ->
  results f = None ->
  step p s f = raise DetectorError s [model_call].
Proof.
  intros H0 Hm Hr. apply Z.eqb_neq in H0. apply Z.eqb_eq in Hm.
  destruct p; unfold step, headless.frame, headless.detect,
    GUI_webcam.update, GUI_webcam.detect; rewrite H0, Hm, Hr; reflexivity.
Qed.

Lemma choice_person p ds :
  all_allowed ds -> person_found p ds = true -> choice p ds = Some person_alert.
Proof.
  intros Hall Hp. destruct p; simpl in *.
  - rewrite Hp. reflexivity.
  - destruct ds as [|d rest]; simpl in *; [congruence|].
    inversion Hall as [|? ? Hd _]; subst.
    destruct (is_person d) eqn:E; [reflexivity|].
    rewrite (allowed_person_or_pet d Hd E) in Hp. congruence.
Qed.

Lemma choice_other p ds :
  all_allowed ds -> person_found p ds = false ->
  choice p ds
  = match p with
    | GUI => None
    | Headless => if is_nil ds then None else Some animal_alert
    end.
Proof.
  intros Hall Hp. destruct p; simpl in *.
  - rewrite Hp. reflexivity.
  - destruct ds as [|d rest]; simpl in *; [reflexivity|].
    destruct (is_person d); [congruence | reflexivity].
Qed.

Lemma step_detector_person p s f rs :
  frame_skip s <> 0 -> frame_count s mod frame_skip s = 0 ->
  results f = Some rs -> person_found p (collect rs) = true ->
  let r := step p s f in
  raised r = None /\ invoked r = true /\
  persistent_detections (post r) = collect rs /\
  frame_count (post r) = frame_count s + 1 /\
  frame_skip (post r) = frame_skip s /\
  motion_enabled (post r) = false /\
  motion_disabled_until (post r) = current_time f + 20000 /\
  sensed r = false /\
  dispatched r = [person_alert] /\
  fired r = (if alert_cooldown p <=? alert_clock f - last_audio_time s
             then [person_alert] else []).
Proof.
  intros H0 Hm Hr Hp. cbv zeta.
  apply Z.eqb_neq in H0. apply Z.eqb_eq in Hm.
  pose proof (person_found_has_person _ _ Hp) as Hh.
  assert (Hn : is_nil (collect rs) = false)
    by (destruct (collect rs); [discriminate Hh | reflexivity]).
  destruct p; cbn [person_found alert_cooldown] in *;
    frame_cases; observe; finish.
Qed.

Lemma step_detector_other p s f rs :
  frame_skip s <> 0 -> frame_count s mod frame_skip s = 0 ->
  results f = Some rs -> person_found p (collect rs) = false ->
  let r := step p s f in
  raised r = None /\ invoked r = true /\
  persistent_detections (post r) = collect rs /\
  frame_count (post r) = frame_count s + 1 /\
  frame_skip (post r) = frame_skip s /\
  motion_disabled_until (post r) = motion_disabled_until s /\
  motion_enabled (post r)
  = (if motion_enabled s then true
     else motion_disabled_until s <=? current_time f) /\
  sensed r = motion_enabled s /\
  detection_alerts r
  = match choice p (collect rs) with Some a => [a] | None => [] end /\
  filter is_detection_alert (fired r)
  = (if alert_cooldown p <=? alert_clock f - last_audio_time s
     then detection_alerts r else []).
Proof.
  intros H0 Hm Hr Hp. cbv zeta.
  apply Z.eqb_neq in H0. apply Z.eqb_eq in Hm.
  rewrite (choice_other p _ (collect_all_allowed rs) Hp).
  destruct p; cbn [person_found alert_cooldown] in *.
  - frame_cases; observe; finish.
  - assert (Hpet : is_nil (collect rs) = false ->
                   pet_before_person (collect rs) = true).
    { intros Hn. apply all_allowed_pet_first;
        [apply collect_all_allowed | | exact Hp].
      intros E. rewrite E in Hn. discriminate. }
    frame_cases; observe; finish;
      rewrite Hpet in * by assumption; discriminate.
Qed.

(** ** The loops *)

Lemma loop_cons p f rest s :
  loop p (Some f :: rest) s =
  match raised (step p s f) with
  | Some e => ([step p s f], crashed e)
  | None => (step p s f :: fst (loop p rest (post (step p s f))),
             snd (loop p rest (post (step p s f))))
  end.
Proof.
  destruct p; simpl.
  - destruct (raised (GUI_webcam.update s f)); [reflexivity|].
    destruct (GUI_webcam.mainloop rest (post (GUI_webcam.update s f))); reflexivity.
  - destruct (raised (headless.frame s f)); [reflexivity|].
    destruct (headless.run rest (post (headless.frame s f))); reflexivity.
Qed.

Lemma last_cons_default {A} (l : list A) (a d : A) :
  last (a :: l) d = last l a.
Proof.
  revert a d. induction l as [|b l IH]; intros a d; [reflexivity|].
  change (last (a :: b :: l) d) with (last (b :: l) d).
  rewrite (IH b d). symmetry. apply IH.
Qed.

Lemma final_cons s r rs : final s (r :: rs) = final (post r) rs.
Proof. unfold final. cbn [map]. apply last_cons_default. Qed.

(** A stretch of frames, none of them a detector frame: the loop runs
    through all of them and none touches the cache. *)
Lemma skipped_frames p fs :
  forall s,
    frame_skip s <> 0 ->
    (forall i, 0 <= i < Z.of_nat (List.length fs) ->
               (frame_count s + i) mod frame_skip s <> 0) ->
    snd (loop p (map Some fs) s) = running /\
    List.length (fst (loop p (map Some fs) s)) = List.length fs /\
    Forall (fun r => invoked r = false /\
                     persistent_detections (post r) = persistent_detections s)
           (fst (loop p (map Some fs) s)).
Proof.
  induction fs as [|f fs IH]; intros s H0 Hskip.
  - destruct p; simpl; repeat split; constructor.
  - cbn [map]. rewrite loop_cons.
    assert (Hm : frame_count s mod frame_skip s <> 0).
    { rewrite <- (Z.add_0_r (frame_count s)). apply Hskip.
      cbn [List.length]. lia. }
    destruct (step_skipped p s f H0 Hm)
      as (Hr & Hi & Hc & Hn & Hk & _).
    rewrite Hr. cbn [fst snd].
    destruct (IH (post (step p s f))) as (E & L & F).
    + rewrite Hk. exact H0.
    + intros i Hi'. rewrite Hk, Hn.
      replace (frame_count s + 1 + i) with (frame_count s + (1 + i)) by lia.
      apply Hskip. cbn [List.length]. lia.
    + split; [exact E|]. split; [cbn [List.length]; rewrite L; reflexivity|].
      constructor; [split; assumption|].
      rewrite Hc in F. exact F.
Qed.

(** C2. For every skip factor [N >= 1] the detector is invoked on a frame
    exactly when [frame_count mod N = 0]; a frame that is not such a frame
    leaves [persistent_detections] untouched; and after a detector frame
    that cached [collect rs], the following frames up to the next detector
    frame (any [fs] shorter than [N]) all run without the detector and
    leave the cache equal to [collect rs]. *)
Theorem detector_cadence p s f :
  1 <= frame_skip s ->
  let r := step p s f in
  (invoked r = true <-> frame_count s mod frame_skip s = 0) /\
  (frame_count s mod frame_skip s <> 0 ->
   raised r = None /\
   persistent_detections (post r) = persistent_detections s) /\
  (forall rs fs,
     frame_count s mod frame_skip s = 0 ->
     results f = Some rs ->
     Z.of_nat (List.length fs) < frame_skip s ->
     persistent_detections (post r) = collect rs /\
     snd (loop p (map Some fs) (post r)) = running /\
     List.length (fst (loop p (map Some fs) (post r))) = List.length fs /\
     Forall (fun r' => invoked r' = false /\
                       persistent_detections (post r') = collect rs)
            (fst (loop p (map Some fs) (post r)))).
Proof.
  intros HN. cbv zeta.
  assert (H0 : frame_skip s <> 0) by lia.
  split; [|split].
  - destruct (Z.eq_dec (frame_count s mod frame_skip s) 0) as [Hm|Hm].
    + split; [intros _; exact Hm | intros _].
      destruct (results f) as [rs|] eqn:Hr.
      * destruct (person_found p (collect rs)) eqn:Hp.
        -- apply (step_detector_person p s f rs H0 Hm Hr Hp).
        -- apply (step_detector_other p s f rs H0 Hm Hr Hp).
      * rewrite (step_detector_fails p s f H0 Hm Hr). reflexivity.
    + destruct (step_skipped p s f H0 Hm) as (_ & Hi & _).
      rewrite Hi. split; [discriminate | contradiction].
  - intros Hm. destruct (step_skipped p s f H0 Hm) as (Hr & _ & Hc & _).
    split; assumption.
  - intros rs fs Hm Hr Hlen.
    assert (Hstep : persistent_detections (post (step p s f)) = collect rs /\
                    frame_count (post (step p s f)) = frame_count s + 1 /\
                    frame_skip (post (step p s f)) = frame_skip s).
    { destruct (person_found p (collect rs)) eqn:Hp.
      - destruct (step_detector_person p s f rs H0 Hm Hr Hp)
          as (_ & _ & Hc & Hn & Hk & _). auto.
      - destruct (step_detector_other p s f rs H0 Hm Hr Hp)
          as (_ & _ & Hc & Hn & Hk & _). auto. }
    destruct Hstep as (Hc & Hn & Hk).
    split; [exact Hc|].
    rewrite <- Hc.
    apply skipped_frames.
    + rewrite Hk. exact H0.
    + intros i Hi. rewrite Hk, Hn.
      replace (frame_count s + 1 + i)
        with (1 + i + (frame_count s / frame_skip s) * frame_skip s).
      * rewrite Z_mod_plus_full, Z.mod_small; lia.
      * pose proof (Z.div_mod (frame_count s) (frame_skip s) H0). lia.
Qed.

Lemma detector_cadence_witness :
  invoked (step Headless init (frame_at 1000 (Some [[person_box]]) false)) = true
  <-> frame_count init mod frame_skip init = 0.
Proof.
  apply (proj1 (detector_cadence Headless init
                  (frame_at 1000 (Some [[person_box]]) false)
                  ltac:(simpl; lia))).
Defined.

(** ** Detector failure *)

(** Counterexample to C5 as stated: the detector fails on frame 0 of the
    headless loop; the loop ends there with the exception, and the frame
    that the source delivers next is never processed. *)
Lemma detector_failure_ends_loop :
  headless.run
    [Some (frame_at 1000 None false); Some (frame_at 1100 (Some []) false)]
    init
  = ([raise DetectorError init [model_call]], crashed DetectorError).
Proof. reflexivity. Qed.

(** C5, amended. If the detector invocation fails on a detector frame,
    the frame leaves the state (the cached batch included) exactly as it
    was, having done nothing but the detector call; the exception is not
    caught, so the loop of either front end ends at that frame whatever
    frames the source would still deliver. *)
Theorem detector_failure p s f rest :
  frame_skip s <> 0 ->
  frame_count s mod frame_skip s = 0 ->
  results f = None ->
  step p s f = raise DetectorError s [model_call] /\
  persistent_detections (post (step p s f)) = persistent_detections s /\
  loop p (Some f :: rest) s
  = ([raise DetectorError s [model_call]], crashed DetectorError).
Proof.
  intros H0 Hm Hr.
  pose proof (step_detector_fails p s f H0 Hm Hr) as E.
  split; [exact E|]. split; [rewrite E; reflexivity|].
  rewrite loop_cons, E. reflexivity.
Qed.

Lemma detector_failure_witness :
  loop GUI
    [Some (frame_at 1000 None false); Some (frame_at 1100 (Some []) false)]
    init
  = ([raise DetectorError init [model_call]], crashed DetectorError).
Proof.
  apply (detector_failure GUI init (frame_at 1000 None false)
           [Some (frame_at 1100 (Some []) false)]);
    [discriminate | reflexivity | reflexivity].
Defined.

(** ** The motion gate *)

Lemma acted_on_person_detection_alerts r :
  acted_on_person r = existsb (alert_eqb person_alert) (detection_alerts r).
Proof.
  unfold acted_on_person, detection_alerts.
  induction (dispatched r) as [|a l IH]; [reflexivity|].
  destruct a; simpl; try rewrite IH; reflexivity.
Qed.

Lemma step_gate p s f :
  frame_skip s <> 0 ->
  let r := step p s f in
  frame_skip (post r) = frame_skip s /\
  acted_on_person r = person_detected p s f /\
  (person_detected p s f = true ->
   raised r = None /\ motion_enabled (post r) = false /\
   motion_disabled_until (post r) = current_time f + 20000 /\
   sensed r = false) /\
  (person_detected p s f = false ->
   motion_disabled_until (post r) = motion_disabled_until s /\
   (motion_enabled s = false -> sensed r = false) /\
   (raised r = None ->
    motion_enabled (post r)
    = if motion_enabled s then true
      else motion_disabled_until s <=? current_time f) /\
   (raised r <> None -> post r = s)).
Proof.
  intros H0. cbv zeta. unfold person_detected, detector_frame.
  destruct (Z.eq_dec (frame_count s mod frame_skip s) 0) as [Hm|Hm].
  - rewrite (proj2 (Z.eqb_eq _ _) Hm). cbn [andb].
    destruct (results f) as [rs|] eqn:Hr.
    + destruct (person_found p (collect rs)) eqn:Hp.
      * destruct (step_detector_person p s f rs H0 Hm Hr Hp)
          as (R & _ & _ & _ & K & E & U & S & D & _).
        unfold acted_on_person. rewrite D.
        repeat split; try assumption; try reflexivity; discriminate.
      * destruct (step_detector_other p s f rs H0 Hm Hr Hp)
          as (R & _ & _ & _ & K & U & E & S & D & _).
        rewrite acted_on_person_detection_alerts, D.
        rewrite (choice_other p _ (collect_all_allowed rs) Hp).
        repeat split; try assumption; try discriminate; try congruence;
          try (intros Hd; rewrite S; exact Hd).
        destruct p; [reflexivity|]. destruct (is_nil (collect rs)); reflexivity.
    + rewrite (step_detector_fails p s f H0 Hm Hr).
      repeat split; try reflexivity; try discriminate;
        try (intros; reflexivity).
  - rewrite (proj2 (Z.eqb_neq _ _) Hm). cbn [andb].
    destruct (step_skipped p s f H0 Hm)
      as (R & _ & _ & _ & K & D & U & E & S & _).
    rewrite acted_on_person_detection_alerts, D.
    repeat split; try assumption; try reflexivity; try discriminate;
      try congruence; try (intros Hd; rewrite S; exact Hd).
Qed.

(** While the clock stays inside a window that ends at [W], a closed gate
    whose [motion_disabled_until] is at least [W] stays closed, and if no
    frame acts on a person, [motion_disabled_until] stays where it was. *)
Lemma closed_window p W fs :
  forall s,
    frame_skip s <> 0 ->
    motion_enabled s = false ->
    W <= motion_disabled_until s ->
    Forall (fun h => W - 20000 <= current_time h < W) fs ->
    Forall (fun r => motion_enabled (post r) = false /\ sensed r = false)
           (fst (loop p (map Some fs) s)) /\
    (Forall (fun r => acted_on_person r = false) (fst (loop p (map Some fs) s)) ->
     frame_skip (final s (fst (loop p (map Some fs) s))) <> 0 /\
     motion_enabled (final s (fst (loop p (map Some fs) s))) = false /\
     motion_disabled_until (final s (fst (loop p (map Some fs) s)))
     = motion_disabled_until s).
Proof.
  induction fs as [|f fs IH]; intros s H0 He Hu Hw.
  - destruct p; simpl; (split; [apply Forall_nil | intros _; unfold final; simpl; auto]).
  - inversion Hw as [|? ? Hf Hfs]; subst.
    cbn [map]. rewrite loop_cons.
    destruct (step_gate p s f H0) as (K & A & Hyes & Hno).
    destruct (person_detected p s f) eqn:Hd.
    + destruct (Hyes eq_refl) as (R & E & U & S).
      rewrite R. cbn [fst snd].
      destruct (IH (post (step p s f))) as (IH1 & IH2); try assumption.
      * rewrite K. exact H0.
      * rewrite U. lia.
      * split; [constructor; [split; assumption | exact IH1]|].
        intros F. inversion F as [|? ? Ha _]; subst. congruence.
    + destruct (Hno eq_refl) as (U & S & E & P).
      specialize (S He).
      destruct (raised (step p s f)) as [e|] eqn:R.
      * assert (Hs : post (step p s f) = s) by (apply P; discriminate).
        cbn [fst snd]. split.
        -- constructor; [|constructor]. rewrite Hs. split; assumption.
        -- intros _. unfold final. cbn [map last]. rewrite Hs. auto.
      * specialize (E eq_refl). rewrite He in E.
        assert (Eb : motion_enabled (post (step p s f)) = false).
        { rewrite E. apply Z.leb_gt. lia. }
        cbn [fst snd].
        destruct (IH (post (step p s f))) as (IH1 & IH2); try assumption.
        -- rewrite K. exact H0.
        -- rewrite U. exact Hu.
        -- split; [constructor; [split; assumption | exact IH1]|].
           intros F. inversion F as [|? ? _ Ft]; subst.
           rewrite final_cons. rewrite <- U. apply IH2. exact Ft.
Qed.

(** C3, at a failing input: the headless loop caches a person entry
    behind a cat entry at 1000 s.  The gate stays enabled, on that frame
    and on the frame one second later, and motion sensing runs on both;
    the GUI, on the same frames, disables the gate and skips motion
    sensing. *)
Lemma person_behind_pet_keeps_gate_open :
  let reads := [Some (frame_at 1000000 (Some [[cat_box; person_box]]) true);
                Some (frame_at 1001000 None true)] in
  let rs := fst (headless.run reads init) in
  map (fun r => has_person (persistent_detections (post r))) rs = [true; true] /\
  map (fun r => motion_enabled (post r)) rs = [true; true] /\
  map sensed rs = [true; true] /\
  map (fun r => motion_enabled (post r)) (fst (GUI_webcam.mainloop reads init))
  = [false; false] /\
  map sensed (fst (GUI_webcam.mainloop reads init)) = [false; false].
Proof. vm_compute. repeat split; reflexivity. Qed.

(** The suppression window once a person is acted on.  Once a frame at
    time [T] is a detector frame whose fresh batch makes the front end act
    on a person (any person entry in the GUI; in the headless loop a person
    entry that no cat or dog entry precedes), the gate is disabled with [motion_disabled_until = T + 20 s]
    and motion sensing is skipped on that frame; on every later frame
    processed at [now] in [[T, T + 20 s)] the flag is still false and
    motion sensing is skipped; and if none of those frames acts on a
    person again, a frame processed at [now >= T + 20 s] that does not act
    on a person either re-enables the gate (motion sensing is still skipped
    on that frame, and runs from the next one). *)
Theorem motion_gate_window p s f fs g :
  frame_skip s <> 0 ->
  person_detected p s f = true ->
  Forall (fun h => current_time f <= current_time h < current_time f + 20000) fs ->
  let r := step p s f in
  let rs := fst (loop p (map Some fs) (post r)) in
  let r' := step p (final (post r) rs) g in
  (motion_enabled (post r) = false /\
   motion_disabled_until (post r) = current_time f + 20000 /\
   sensed r = false) /\
  Forall (fun x => motion_enabled (post x) = false /\ sensed x = false) rs /\
  (snd (loop p (map Some fs) (post r)) = running ->
   Forall (fun x => acted_on_person x = false) rs ->
   current_time f + 20000 <= current_time g ->
   raised r' = None ->
   acted_on_person r' = false ->
   motion_enabled (post r') = true /\ sensed r' = false).
Proof.
  intros H0 Hd Hw. cbv zeta.
  destruct (step_gate p s f H0) as (K & _ & Hyes & _).
  destruct (Hyes Hd) as (R & E & U & S).
  assert (Hw' : Forall (fun h => (current_time f + 20000) - 20000 <= current_time h
                                 < current_time f + 20000) fs).
  { eapply Forall_impl; [|exact Hw]. cbv beta. intros h Hh. lia. }
  destruct (closed_window p (current_time f + 20000) fs (post (step p s f)))
    as (C1 & C2); try assumption.
  - rewrite K. exact H0.
  - rewrite U. lia.
  - split; [auto|]. split; [exact C1|].
    intros _ Hquiet Hg Rg Ag.
    destruct (C2 Hquiet) as (K' & E' & U').
    destruct (step_gate p _ g K') as (_ & A & _ & Hno).
    rewrite Ag in A. symmetry in A.
    destruct (Hno A) as (_ & S' & E'' & _).
    split; [|exact (S' E')].
    rewrite (E'' Rg), E'. apply Z.leb_le. rewrite U', U. exact Hg.
Qed.

Lemma motion_gate_window_witness :
  let r := step GUI init (frame_at 1000000 (Some [[cat_box; person_box]]) true) in
  motion_enabled (post r) = false /\
  motion_disabled_until (post r) = 1020000 /\
  sensed r = false.
Proof.
  cbv zeta.
  apply (motion_gate_window GUI init
           (frame_at 1000000 (Some [[cat_box; person_box]]) true)
           [frame_at 1010000 None true]
           (frame_at 1020000 None true)).
  - discriminate.
  - reflexivity.
  - repeat constructor; simpl; lia.
Defined.

(** C9, at a failing input: the headless loop caches a person at 1000 s
    on frame 0, which disables the gate until 1020 s; frame 5, at 1005 s,
    is the next detector frame and caches a person entry behind a cat
    entry.  [motion_disabled_until] stays at 1020 s instead of moving to
    1025 s; the GUI, on the same frames, moves it to 1025 s. *)
Lemma person_behind_pet_keeps_window :
  let reads := [Some (frame_at 1000000 (Some [[person_box]]) false);
                Some (frame_at 1001000 None false);
                Some (frame_at 1002000 None false);
                Some (frame_at 1003000 None false);
                Some (frame_at 1004000 None false);
                Some (frame_at 1005000 (Some [[cat_box; person_box]]) false)] in
  let rs := fst (headless.run reads init) in
  map invoked rs = [true; false; false; false; false; true] /\
  map (fun r => motion_enabled (post r)) rs
  = [false; false; false; false; false; false] /\
  has_person (persistent_detections (final init rs)) = true /\
  motion_disabled_until (final init rs) = 1020000 /\
  motion_disabled_until (final init rs) <> 1005000 + 20000 /\
  motion_disabled_until (final init (fst (GUI_webcam.mainloop reads init)))
  = 1005000 + 20000.
Proof.
  vm_compute. repeat split; try reflexivity. discriminate.
Qed.

(** The reset of the window.  Whenever a detector frame at time [T']
    makes the front end act on a person (any person entry in the GUI; in
    the headless loop a person entry that no cat or dog entry precedes),
    [motion_disabled_until] becomes exactly [T' + 20 s], whatever it was
    before, and the gate is (still) disabled. *)
Theorem suppression_window_reset p s f :
  frame_skip s <> 0 ->
  person_detected p s f = true ->
  motion_enabled (post (step p s f)) = false /\
  motion_disabled_until (post (step p s f)) = current_time f + 20000.
Proof.
  intros H0 Hd.
  destruct (step_gate p s f H0) as (_ & _ & Hyes & _).
  destruct (Hyes Hd) as (_ & E & U & _). split; assumption.
Qed.

Lemma suppression_window_reset_witness :
  motion_enabled
    (post (step Headless (mk_state 5 false 20000 [person_det] 0 0)
             (frame_at 5000 (Some [[person_box; cat_box]]) false))) = false /\
  motion_disabled_until
    (post (step Headless (mk_state 5 false 20000 [person_det] 0 0)
             (frame_at 5000 (Some [[person_box; cat_box]]) false)))
  = 5000 + 20000.
Proof.
  apply (suppression_window_reset Headless
           (mk_state 5 false 20000 [person_det] 0 0)
           (frame_at 5000 (Some [[person_box; cat_box]]) false));
    [discriminate | reflexivity].
Defined.

(** ** Skipped frames *)

(** Counterexample to C10 as stated: the GUI caches a person at 100 s on
    frame 0; frame 1, at 121 s, re-enables the gate; frame 2, at 122 s, is
    a skipped frame with the person entry still cached, and the
    motion-alert that fires on it moves the audio throttle from 100 s to
    122 s. *)
Lemma skipped_frame_moves_audio_throttle :
  let rs := fst (GUI_webcam.mainloop
                   [Some (frame_at 100000 (Some [[person_box]]) false);
                    Some (frame_at 121000 None false);
                    Some (frame_at 122000 None true)]
                   init) in
  map invoked rs = [true; false; false] /\
  map (fun r => has_person (persistent_detections (post r))) rs
  = [true; true; true] /\
  map fired rs = [[person_alert]; []; [motion_alert]] /\
  map (fun r => last_audio_time (post r)) rs = [100000; 100000; 122000].
Proof. vm_compute. repeat split; reflexivity. Qed.

(** C10, amended. On a frame where the detector is not due, whatever the
    cache holds: the detector is not invoked, no person or animal alert is
    dispatched, the cache and [motion_disabled_until] are unchanged and an
    enabled gate stays enabled; the audio throttle is unchanged unless a
    motion-alert fires on that frame, which then sets it to the time of
    that alert. *)
Theorem skipped_frame_effect p s f :
  frame_skip s <> 0 ->
  frame_count s mod frame_skip s <> 0 ->
  let r := step p s f in
  raised r = None /\ invoked r = false /\
  detection_alerts r = [] /\ acted_on_person r = false /\
  persistent_detections (post r) = persistent_detections s /\
  motion_disabled_until (post r) = motion_disabled_until s /\
  (motion_enabled s = true -> motion_enabled (post r) = true) /\
  ((fired r = [] /\ last_audio_time (post r) = last_audio_time s) \/
   (fired r = [motion_alert] /\ sensed r = true /\
    last_audio_time (post r) = motion_clock f)).
Proof.
  intros H0 Hm. cbv zeta.
  destruct (step_skipped p s f H0 Hm)
    as (R & I & C & _ & _ & D & U & E & _ & _ & A).
  rewrite acted_on_person_detection_alerts, D.
  repeat (split; [assumption || reflexivity|]).
  split; [|exact A].
  intros He. rewrite E, He. reflexivity.
Qed.

Lemma skipped_frame_effect_witness :
  detection_alerts
    (step Headless (mk_state 1 true 0 [person_det] 0 0)
       (frame_at 1000000 None true)) = [] /\
  motion_disabled_until
    (post (step Headless (mk_state 1 true 0 [person_det] 0 0)
             (frame_at 1000000 None true))) = 0.
Proof.
  destruct (skipped_frame_effect Headless (mk_state 1 true 0 [person_det] 0 0)
              (frame_at 1000000 None true))
    as (_ & _ & D & _ & _ & U & _); [discriminate | discriminate |].
  split; [exact D | exact U].
Defined.

(** ** Alert dispatch *)

(** Counterexample to C4 as stated: the headless batch holds a cat entry
    followed by a person entry, and the alert dispatched is the animal
    alert. *)
Lemma pet_first_gets_animal_alert :
  let r := headless.frame init
             (frame_at 1000000 (Some [[cat_box; person_box]]) false) in
  has_person (persistent_detections (post r)) = true /\
  existsb is_pet (persistent_detections (post r)) = true /\
  dispatched r = [animal_alert] /\
  fired r = [animal_alert].
Proof. vm_compute. repeat split; reflexivity. Qed.

(** On any frame whose two audio clock readings are less than 10 s apart,
    at most one alert fires. *)
Lemma fired_at_most_one p s f :
  motion_clock f - alert_clock f < 10000 ->
  (List.length (fired (step p s f)) <= 1)%nat.
Proof.
  intros Hc.
  destruct p; frame_cases; observe; cbn [List.length];
    try lia; try (exfalso; leb_hyps; lia).

Qed.

(** A frame that acts on a person dispatches nothing else. *)
Lemma person_alert_alone p s f :
  frame_skip s <> 0 ->
  acted_on_person (step p s f) = true ->
  dispatched (step p s f) = [person_alert].
Proof.
  intros H0 Ha.
  destruct (step_gate p s f H0) as (_ & A & _ & _).
  rewrite Ha in A. symmetry in A.
  unfold person_detected, detector_frame in A.
  apply andb_prop in A. destruct A as [Hm Hp].
  apply Z.eqb_eq in Hm.
  destruct (results f) as [rs|] eqn:Hr; [|discriminate].
  apply (step_detector_person p s f rs H0 Hm Hr Hp).
Qed.

(** C4, amended. On a detector frame the person and animal alerts
    dispatched are at most one, the one [choice] names: in the GUI the
    person-alert whenever the batch holds a person entry, at any position
    (there is no animal-alert); in the headless loop the alert of the first
    entry of the batch, so the person-alert only when the person entry
    comes first.  That alert fires iff the shared audio cooldown has
    elapsed.  A person-alert is the only alert dispatched on its frame, and
    on a frame whose audio clock readings are less than 10 s apart at most
    one alert fires. *)
Theorem alert_dispatch p s f rs :
  frame_skip s <> 0 ->
  frame_count s mod frame_skip s = 0 ->
  results f = Some rs ->
  let r := step p s f in
  detection_alerts r
  = match choice p (collect rs) with Some a => [a] | None => [] end /\
  filter is_detection_alert (fired r)
  = (if alert_cooldown p <=? alert_clock f - last_audio_time s
     then detection_alerts r else []) /\
  (acted_on_person r = true -> dispatched r = [person_alert]) /\
  (motion_clock f - alert_clock f < 10000 ->
   (List.length (fired r) <= 1)%nat).
Proof.
  intros H0 Hm Hr. cbv zeta.
  split; [|split; [|split]].
  - destruct (person_found p (collect rs)) eqn:Hp.
    + destruct (step_detector_person p s f rs H0 Hm Hr Hp)
        as (_ & _ & _ & _ & _ & _ & _ & _ & D & _).
      unfold detection_alerts. rewrite D.
      rewrite (choice_person p _ (collect_all_allowed rs) Hp). reflexivity.
    + apply (step_detector_other p s f rs H0 Hm Hr Hp).
  - destruct (person_found p (collect rs)) eqn:Hp.
    + destruct (step_detector_person p s f rs H0 Hm Hr Hp)
        as (_ & _ & _ & _ & _ & _ & _ & _ & D & F).
      unfold detection_alerts. rewrite D, F.
      destruct (alert_cooldown p <=? alert_clock f - last_audio_time s);
        reflexivity.
    + apply (step_detector_other p s f rs H0 Hm Hr Hp).
  - apply person_alert_alone. exact H0.
  - apply fired_at_most_one.
Qed.

Lemma alert_dispatch_witness :
  detection_alerts
    (step GUI init (frame_at 1000000 (Some [[cat_box; person_box]]) false))
  = [person_alert] /\
  detection_alerts
    (step Headless init (frame_at 1000000 (Some [[person_box; cat_box]]) false))
  = [person_alert].
Proof.
  split.
  - apply (proj1 (alert_dispatch GUI init
                    (frame_at 1000000 (Some [[cat_box; person_box]]) false)
                    [[cat_box; person_box]]
                    ltac:(discriminate) eq_refl eq_refl)).
  - apply (proj1 (alert_dispatch Headless init
                    (frame_at 1000000 (Some [[person_box; cat_box]]) false)
                    [[person_box; cat_box]]
                    ltac:(discriminate) eq_refl eq_refl)).
Defined.

(** ** Motion saves *)

Lemma saved_of_motion drawn prefix :
  saved_of MOTION_FRAMES_DIR (save_frame MOTION_FRAMES_DIR prefix drawn) = [drawn].
Proof. reflexivity. Qed.

Lemma saved_of_person drawn prefix :
  saved_of MOTION_FRAMES_DIR (save_frame PERSON_FRAMES_DIR prefix drawn) = [].
Proof. reflexivity. Qed.

Ltac observe_saved :=
  unfold saved, sensed, dispatched; fields;
  repeat rewrite flat_map_app; repeat rewrite existsb_app;
  cbn [app flat_map existsb is_motion_apply dispatched_of orb];
  repeat rewrite flat_map_app; repeat rewrite existsb_app;
  use_person_saves;
  repeat rewrite saved_of_motion; repeat rewrite saved_of_person;
  cbn [app flat_map existsb is_motion_apply dispatched_of orb saved_of].

Ltac close_case :=
  intros;
  repeat match goal with
  | H : _ /\ _ |- _ => destruct H
  | H : _ \/ _ |- _ => destruct H
  end;
  leb_hyps;
  try congruence; try lia;
  try (repeat split; try assumption; try reflexivity; try lia;
       try congruence; try (simpl; tauto)).

(** The headless loop saves a motion frame exactly when motion sensing
    ran, found significant motion and 0.2 s have passed since the last
    motion save; it then dispatches the motion-alert.  The picture saved
    carries the boxes of the cache. *)
Lemma headless_motion_save s f :
  let r := headless.frame s f in
  (saved MOTION_FRAMES_DIR r <> [] <->
   sensed r = true /\ significant_motion f = true /\
   200 <= current_time f - last_saved_motion s) /\
  (saved MOTION_FRAMES_DIR r <> [] ->
   saved MOTION_FRAMES_DIR r = [persistent_detections (post r)] /\
   In motion_alert (dispatched r) /\
   last_saved_motion (post r) = current_time f).
Proof.
  cbv zeta. frame_cases; observe_saved;
    repeat match goal with
    | H : _ && _ = true |- _ => apply andb_prop in H; destruct H
    | H : _ && _ = false |- _ => apply andb_false_iff in H
    end;
    (split; [split|]); close_case.
Qed.

(** The GUI saves the raw picture on every frame on which motion sensing
    ran and found significant motion, whatever the time of the last motion
    save, and dispatches the motion-alert. *)
Lemma GUI_motion_save s f :
  let r := GUI_webcam.update s f in
  (saved MOTION_FRAMES_DIR r <> [] <->
   sensed r = true /\ significant_motion f = true) /\
  (saved MOTION_FRAMES_DIR r <> [] ->
   saved MOTION_FRAMES_DIR r = [[]] /\
   In motion_alert (dispatched r) /\
   last_saved_motion (post r) = current_time f).
Proof.
  cbv zeta. frame_cases; observe_saved; (split; [split|]); close_case.
Qed.

(** C7, at a failing input. The source delivers two frames 50 ms apart,
    both with significant motion and nothing detected.  The GUI saves a
    motion frame on both, although 0.2 s have not elapsed since the first
    save; the headless loop, on the same input, saves the first only. *)
Theorem GUI_motion_save_ignores_throttle :
  let reads := [Some (frame_at 1700000000000 (Some []) true);
                Some (frame_at 1700000000050 None true)] in
  map (saved MOTION_FRAMES_DIR) (fst (GUI_webcam.mainloop reads init))
  = [[[]]; [[]]] /\
  map (fun r => last_saved_motion (post r)) (fst (GUI_webcam.mainloop reads init))
  = [1700000000000; 1700000000050] /\
  1700000000050 - 1700000000000 < 200 /\
  map (saved MOTION_FRAMES_DIR) (fst (headless.run reads init))
  = [[[]]; []].
Proof.
  vm_compute. repeat split; reflexivity.
Qed.

(** In the headless loop the motion frame is saved after the boxes are
    drawn: with a cat in the cache, the picture saved carries its box. *)
Lemma headless_motion_save_annotated :
  saved MOTION_FRAMES_DIR
    (headless.frame (mk_state 1 true 0 [cat_det] 0 0)
       (frame_at 1700000000050 None true))
  = [[cat_det]].
Proof. reflexivity. Qed.

(** * Further properties of the code *)

(** ** The drawing loop of the GUI, exactly *)

Lemma GUI_draw_loop_quiet ds f :
  forall drawn s,
    negb (is_nil (persistent_detections s))
    && (200 <=? current_time f - last_saved_person s) = false ->
    GUI_webcam.draw_loop ds f drawn s = (s, []).
Proof.
  induction ds as [|d rest IH]; intros drawn s Hc; [reflexivity|].
  cbn [GUI_webcam.draw_loop]. rewrite Hc. apply IH. exact Hc.
Qed.

Lemma GUI_draw_loop_eq ds f drawn s :
  GUI_webcam.draw_loop ds f drawn s =
  if negb (is_nil ds)
     && (negb (is_nil (persistent_detections s))
         && (200 <=? current_time f - last_saved_person s))
  then (set_last_saved_person (current_time f) s,
        [save_frame PERSON_FRAMES_DIR "person_pet" (drawn ++ firstn 1 ds)])
  else (s, []).
Proof.
  destruct ds as [|d rest]; [reflexivity|].
  cbn [is_nil negb andb firstn].
  destruct (negb (is_nil (persistent_detections s))
            && (200 <=? current_time f - last_saved_person s)) eqn:Hc.
  - cbn [GUI_webcam.draw_loop]. rewrite Hc.
    rewrite GUI_draw_loop_quiet; [reflexivity|].
    cbn [persistent_detections last_saved_person set_last_saved_person].
    apply andb_false_iff. right. apply Z.leb_gt. lia.
  - apply GUI_draw_loop_quiet. exact Hc.
Qed.

Ltac frame_cases_exact :=
  unfold step, headless.frame, headless.detect, headless.save_person,
    headless.motion, headless.draw,
    GUI_webcam.update, GUI_webcam.detect, GUI_webcam.motion, ok, raise, speak;
  cbv zeta; fields;
  repeat (first [ rewrite headless_alert_loop
                | rewrite GUI_alert_loop
                | rewrite GUI_draw_loop_eq
                | rewrite play_gtts_text_leb
                | break_if ];
          unfold speak; cbv zeta; fields; try congruence);
  fields.

Lemma step_zero_skip p s f :
  frame_skip s = 0 -> step p s f = raise ZeroDivisionError s [].
Proof.
  intros H. apply Z.eqb_eq in H.
  destruct p; unfold step, headless.frame, headless.detect,
    GUI_webcam.update, GUI_webcam.detect; rewrite H; reflexivity.
Qed.

(** What every frame keeps, whatever the input. *)
Lemma step_keeps p s f :
  let r := step p s f in
  frame_skip (post r) = frame_skip s /\
  (raised r <> None -> post r = s) /\
  (raised r = None -> frame_count (post r) = frame_count s + 1) /\
  last_audio_time s <= last_audio_time (post r) /\
  (fired r <> [] ->
   last_audio_time s + alert_cooldown p <= last_audio_time (post r)) /\
  last_saved_person s <= last_saved_person (post r) /\
  (p = Headless -> last_saved_motion s <= last_saved_motion (post r)).
Proof.
  cbv zeta.
  destruct p; cbn [alert_cooldown]; frame_cases_exact; observe;
    repeat match goal with
    | H : _ && _ = true |- _ => apply andb_prop in H; destruct H
    end;
    leb_hyps;
    repeat split; intros; try reflexivity; try congruence; try lia.
Qed.

Lemma saved_person_of_person drawn prefix :
  saved_of PERSON_FRAMES_DIR (save_frame PERSON_FRAMES_DIR prefix drawn) = [drawn].
Proof. reflexivity. Qed.

Lemma saved_person_of_motion drawn prefix :
  saved_of PERSON_FRAMES_DIR (save_frame MOTION_FRAMES_DIR prefix drawn) = [].
Proof. reflexivity. Qed.

Ltac observe_person_saves :=
  unfold person_saves, saved, invoked; fields;
  repeat rewrite flat_map_app;
  cbn [app flat_map existsb is_model_call orb];
  repeat rewrite saved_person_of_person; repeat rewrite saved_person_of_motion;
  cbn [app flat_map saved_of].

(** The detector cadence of a frame, as a function of the cadence part of
    the state and of the detector's answer alone. *)
Lemma step_cadence p s f :
  let r := step p s f in
  let due := negb (frame_skip s =? 0) && detector_frame s in
  raised r
  = (if frame_skip s =? 0 then Some ZeroDivisionError
     else if due && negb (is_some (results f)) then Some DetectorError
     else None) /\
  invoked r = due /\
  persistent_detections (post r)
  = (if due then
       match results f with
       | Some rs => collect rs
       | None => persistent_detections s
       end
     else persistent_detections s).
Proof.
  cbv zeta. unfold detector_frame.
  destruct (Z.eq_dec (frame_skip s) 0) as [H0|H0].
  - rewrite (step_zero_skip p s f H0).
    rewrite (proj2 (Z.eqb_eq _ _) H0). repeat split.
  - rewrite (proj2 (Z.eqb_neq _ _) H0). cbn [negb andb].
    destruct (Z.eq_dec (frame_count s mod frame_skip s) 0) as [Hm|Hm].
    + rewrite (proj2 (Z.eqb_eq _ _) Hm).
      destruct (results f) as [rs|] eqn:Hr; cbn [is_some negb andb].
      * destruct (person_found p (collect rs)) eqn:Hp.
        -- destruct (step_detector_person p s f rs H0 Hm Hr Hp)
             as (R & I & C & _). auto.
        -- destruct (step_detector_other p s f rs H0 Hm Hr Hp)
             as (R & I & C & _). auto.
      * rewrite (step_detector_fails p s f H0 Hm Hr). repeat split.
    + rewrite (proj2 (Z.eqb_neq _ _) Hm).
      destruct (step_skipped p s f H0 Hm) as (R & I & C & _). auto.
Qed.

(** The person/pet save of a frame. *)
Lemma step_person_save p s f :
  let r := step p s f in
  let go := negb (is_nil (persistent_detections (post r)))
            && (200 <=? current_time f - last_saved_person s) in
  raised r = None ->
  person_saves r
  = (if go then
       [match p with
        | Headless => persistent_detections (post r)
        | GUI => firstn 1 (persistent_detections (post r))
        end]
     else []) /\
  last_saved_person (post r)
  = (if go then current_time f else last_saved_person s).
Proof.
  cbv zeta.
  destruct p; frame_cases_exact; observe_person_saves;
    intros; repeat split; try reflexivity; try congruence;
    repeat match goal with
    | H : context [is_nil ?x] |- _ => destruct (is_nil x)
    end;
    repeat match goal with
    | H : context [?a <=? ?b] |- _ => destruct (a <=? b)
    end;
    cbn [negb andb] in *; congruence.
Qed.

(** ** Whole runs *)

Lemma loop_nil p s : loop p [] s = ([], running).
Proof. destruct p; reflexivity. Qed.

Lemma loop_none_GUI rest s : loop GUI (None :: rest) s = loop GUI rest s.
Proof. reflexivity. Qed.

Lemma loop_none_headless rest s :
  loop Headless (None :: rest) s = ([], read_failed).
Proof. reflexivity. Qed.

Lemma step_all_allowed p s f :
  all_allowed (persistent_detections s) ->
  all_allowed (persistent_detections (post (step p s f))).
Proof.
  intros H. destruct (step_cadence p s f) as (_ & _ & C). rewrite C.
  destruct (negb (frame_skip s =? 0) && detector_frame s); [|exact H].
  destruct (results f); [apply collect_all_allowed | exact H].
Qed.

(** X1. Along any run of either front end, from a state whose cache holds
    only allowed labels (the initial state does), the cache after every
    frame holds only the labels person, cat and dog. *)
Theorem cache_holds_allowed_labels p reads :
  forall s,
    all_allowed (persistent_detections s) ->
    Forall (fun r => all_allowed (persistent_detections (post r)))
           (fst (loop p reads s)).
Proof.
  induction reads as [|[f|] rest IH]; intros s H.
  - rewrite loop_nil. constructor.
  - rewrite loop_cons.
    pose proof (step_all_allowed p s f H) as Hc.
    destruct (raised (step p s f)); cbn [fst].
    + constructor; [exact Hc | constructor].
    + constructor; [exact Hc | apply IH; exact Hc].
  - destruct p; [apply IH; exact H | constructor].
Qed.

Lemma cache_holds_allowed_labels_witness :
  Forall (fun r => all_allowed (persistent_detections (post r)))
         (fst (loop Headless
                 [Some (frame_at 1000 (Some [[chair_box; cat_box]]) false)]
                 init)).
Proof.
  apply (cache_holds_allowed_labels Headless
           [Some (frame_at 1000 (Some [[chair_box; cat_box]]) false)] init).
  constructor.
Defined.

(** X2. [frame_skip] never changes, and [frame_count] grows by exactly one
    for each frame that is processed to its end: a failed read and a frame
    left by an exception are not counted. *)
Theorem frame_counter_counts_frames p reads :
  forall s,
    frame_skip (final s (fst (loop p reads s))) = frame_skip s /\
    frame_count (final s (fst (loop p reads s)))
    = frame_count s
      + Z.of_nat (List.length (filter completed (fst (loop p reads s)))).
Proof.
  induction reads as [|[f|] rest IH]; intros s.
  - rewrite loop_nil. unfold final. cbn. split; lia.
  - rewrite loop_cons.
    destruct (step_keeps p s f) as (K & Hraise & Hok & _).
    destruct (raised (step p s f)) as [e|] eqn:R; cbn [fst].
    + unfold final, completed. cbn [map last filter]. rewrite R.
      cbn [is_some negb List.length].
      rewrite Hraise by discriminate. split; lia.
    + rewrite final_cons. cbn [filter]. unfold completed at 1. rewrite R.
      cbn [is_some negb List.length].
      destruct (IH (post (step p s f))) as (K' & C').
      rewrite K', C', K, (Hok eq_refl). split; lia.
  - destruct p; [apply IH|].
    rewrite loop_none_headless. unfold final. cbn. split; lia.
Qed.

(** X3. On every frame the audio throttle never moves back, and a frame on
    which an alert fires moves it forward by at least the cooldown of the
    person alert (3 s headless, 5 s GUI): two audios never start closer
    than that, whatever the clock readings. *)
Theorem audio_alerts_spaced p s f :
  last_audio_time s <= last_audio_time (post (step p s f)) /\
  (fired (step p s f) <> [] ->
   last_audio_time s + alert_cooldown p
   <= last_audio_time (post (step p s f))).
Proof.
  destruct (step_keeps p s f) as (_ & _ & _ & A & B & _). split; assumption.
Qed.

(** X4. Over any run, whatever the clock does, [last_audio_time] and
    [last_saved_times["person"]] never decrease, and in the headless loop
    neither does [last_saved_times["motion"]]. *)
Theorem throttle_clocks_never_go_back p reads :
  forall s,
    last_audio_time s <= last_audio_time (final s (fst (loop p reads s))) /\
    last_saved_person s <= last_saved_person (final s (fst (loop p reads s))) /\
    (p = Headless ->
     last_saved_motion s <= last_saved_motion (final s (fst (loop p reads s)))).
Proof.
  induction reads as [|[f|] rest IH]; intros s.
  - rewrite loop_nil. unfold final. cbn. repeat split; intros; lia.
  - rewrite loop_cons.
    destruct (step_keeps p s f) as (_ & _ & _ & A & _ & P & M).
    destruct (raised (step p s f)) as [e|] eqn:R; cbn [fst].
    + unfold final. cbn [map last]. repeat split; auto.
    + rewrite final_cons.
      destruct (IH (post (step p s f))) as (A' & P' & M').
      repeat split; try lia. intros Hp. specialize (M Hp). specialize (M' Hp). lia.
  - destruct p; [apply IH|].
    rewrite loop_none_headless. unfold final. cbn. repeat split; intros; lia.
Qed.

(** X5. A frame saves at most one person/pet picture, and it saves one
    exactly when the cache is non-empty after the detector stage and 0.2 s
    have passed since the last person/pet save; the save sets
    [last_saved_times["person"]] to the time of the frame, and without a
    save it is unchanged. *)
Theorem person_save_throttled p s f :
  raised (step p s f) = None ->
  (person_saves (step p s f) <> [] <->
   persistent_detections (post (step p s f)) <> [] /\
   200 <= current_time f - last_saved_person s) /\
  (List.length (person_saves (step p s f)) <= 1)%nat /\
  (person_saves (step p s f) <> [] ->
   last_saved_person (post (step p s f)) = current_time f) /\
  (person_saves (step p s f) = [] ->
   last_saved_person (post (step p s f)) = last_saved_person s).
Proof.
  intros R. destruct (step_person_save p s f R) as (S & L).
  rewrite S, L.
  destruct (persistent_detections (post (step p s f))) as [|d ds];
    cbn [is_nil negb andb].
  - repeat split; intros; try congruence; try (cbn; lia); tauto.
  - destruct (Z.leb_spec 200 (current_time f - last_saved_person s));
      repeat split; intros; try congruence; try (cbn; lia); try tauto;
      try discriminate.
Qed.

Lemma person_save_throttled_witness :
  (List.length
     (person_saves
        (step GUI init (frame_at 1000 (Some [[cat_box; person_box]]) false)))
   <= 1)%nat.
Proof.
  apply (person_save_throttled GUI init
           (frame_at 1000 (Some [[cat_box; person_box]]) false)).
  reflexivity.
Defined.

(** X6. The picture of a person/pet save: the headless loop saves the
    frame with the boxes of the whole cache drawn on it; the GUI saves it
    from inside its drawing loop, after the first box only, so its picture
    carries the first cached entry alone. *)
Theorem person_save_picture p s f picture :
  raised (step p s f) = None ->
  In picture (person_saves (step p s f)) ->
  picture
  = match p with
    | Headless => persistent_detections (post (step p s f))
    | GUI => firstn 1 (persistent_detections (post (step p s f)))
    end.
Proof.
  intros R Hin. destruct (step_person_save p s f R) as (S & _).
  rewrite S in Hin.
  destruct (negb (is_nil (persistent_detections (post (step p s f))))
            && (200 <=? current_time f - last_saved_person s));
    cbn in Hin; [|contradiction].
  destruct Hin as [<-|[]]. reflexivity.
Qed.

Lemma person_save_picture_witness :
  [cat_det]
  = firstn 1 (persistent_detections
                (post (step GUI init
                         (frame_at 1000 (Some [[cat_box; person_box]]) false)))).
Proof.
  apply (person_save_picture GUI init
           (frame_at 1000 (Some [[cat_box; person_box]]) false) [cat_det]).
  - reflexivity.
  - left. reflexivity.
Defined.

(** ** The gate, frame by frame *)

(** X7. The moves of the motion gate on a frame that completes: motion
    sensing runs exactly when the gate was enabled and the frame does not
    act on a person; the gate is disabled exactly by acting on a person,
    and otherwise is enabled after the frame iff it was enabled or the
    frame's time has reached [motion_disabled_until]; and
    [motion_disabled_until] changes only by acting on a person. *)
Theorem gate_transitions p s f :
  frame_skip s <> 0 ->
  raised (step p s f) = None ->
  sensed (step p s f) = motion_enabled s && negb (person_detected p s f) /\
  motion_enabled (post (step p s f))
  = (if person_detected p s f then false
     else motion_enabled s || (motion_disabled_until s <=? current_time f)) /\
  motion_disabled_until (post (step p s f))
  = (if person_detected p s f then current_time f + 20000
     else motion_disabled_until s).
Proof.
  intros H0 R. unfold person_detected, detector_frame.
  destruct (Z.eq_dec (frame_count s mod frame_skip s) 0) as [Hm|Hm].
  - rewrite (proj2 (Z.eqb_eq _ _) Hm). cbn [andb].
    destruct (results f) as [rs|] eqn:Hr.
    + destruct (person_found p (collect rs)) eqn:Hp.
      * destruct (step_detector_person p s f rs H0 Hm Hr Hp)
          as (_ & _ & _ & _ & _ & E & U & S & _).
        rewrite E, U, S. cbn [negb]. rewrite andb_false_r. auto.
      * destruct (step_detector_other p s f rs H0 Hm Hr Hp)
          as (_ & _ & _ & _ & _ & U & E & S & _).
        rewrite E, U, S. cbn [negb]. rewrite andb_true_r.
        destruct (motion_enabled s); auto.
    + rewrite (step_detector_fails p s f H0 Hm Hr) in R. discriminate.
  - rewrite (proj2 (Z.eqb_neq _ _) Hm). cbn [andb negb].
    destruct (step_skipped p s f H0 Hm)
      as (_ & _ & _ & _ & _ & _ & U & E & S & _).
    rewrite E, U, S, andb_true_r. destruct (motion_enabled s); auto.
Qed.

Lemma gate_transitions_witness :
  sensed (step Headless init (frame_at 1000 (Some [[cat_box; person_box]]) true))
  = motion_enabled init
    && negb (person_detected Headless init
               (frame_at 1000 (Some [[cat_box; person_box]]) true)).
Proof.
  apply (gate_transitions Headless init
           (frame_at 1000 (Some [[cat_box; person_box]]) true));
    [discriminate | reflexivity].
Defined.

(** ** Failed reads *)

(** X8. The headless loop ends at the first failed read: the frames
    delivered before it are processed as they would be without it, and
    nothing delivered after it is processed. *)
Theorem headless_stops_at_failed_read fs rest s :
  headless.run (map Some fs ++ None :: rest) s
  = (fst (headless.run (map Some fs) s),
     match snd (headless.run (map Some fs) s) with
     | running => read_failed
     | e => e
     end).
Proof.
  revert s. induction fs as [|f fs IH]; intros s; [reflexivity|].
  cbn [map app headless.run].
  destruct (raised (headless.frame s f)); [reflexivity|].
  rewrite IH.
  destruct (headless.run (map Some fs) (post (headless.frame s f))) as [rs e].
  reflexivity.
Qed.

(** X9. The GUI tries again after a failed read: a failed read anywhere
    in the stream changes nothing, the run is the run without it. *)
Theorem GUI_retries_failed_read before rest s :
  GUI_webcam.mainloop (before ++ None :: rest) s
  = GUI_webcam.mainloop (before ++ rest) s.
Proof.
  revert s. induction before as [|[f|] before IH]; intros s; [reflexivity| |].
  - cbn [app GUI_webcam.mainloop].
    destruct (raised (GUI_webcam.update s f)); [reflexivity|].
    rewrite IH. reflexivity.
  - cbn [app GUI_webcam.mainloop]. apply IH.
Qed.

(** ** The skip factor *)

Lemma loop_keeps_skip p reads :
  forall s, Forall (fun r => frame_skip (post r) = frame_skip s)
                   (fst (loop p reads s)).
Proof.
  induction reads as [|[f|] rest IH]; intros s.
  - rewrite loop_nil. constructor.
  - rewrite loop_cons.
    destruct (step_keeps p s f) as (K & _).
    destruct (raised (step p s f)); cbn [fst].
    + constructor; [exact K | constructor].
    + constructor; [exact K|].
      eapply Forall_impl; [|apply IH]. cbv beta. intros r Hr. congruence.
  - destruct p; [apply IH | constructor].
Qed.

(** X10. With [frame_skip = 1] the detector is invoked on every frame of
    the run. *)
Theorem detector_on_every_frame p reads :
  forall s,
    frame_skip s = 1 ->
    Forall (fun r => invoked r = true) (fst (loop p reads s)).
Proof.
  induction reads as [|[f|] rest IH]; intros s H1.
  - rewrite loop_nil. constructor.
  - rewrite loop_cons.
    assert (Hi : invoked (step p s f) = true).
    { destruct (step_cadence p s f) as (_ & I & _). rewrite I.
      unfold detector_frame. rewrite H1, Z.mod_1_r. reflexivity. }
    destruct (step_keeps p s f) as (K & _).
    destruct (raised (step p s f)); cbn [fst].
    + constructor; [exact Hi | constructor].
    + constructor; [exact Hi | apply IH; congruence].
  - destruct p; [apply IH; exact H1 | constructor].
Qed.

Lemma detector_on_every_frame_witness :
  Forall (fun r => invoked r = true)
         (fst (loop GUI
                 [Some (frame_at 1000 (Some []) false);
                  Some (frame_at 1100 (Some [[cat_box]]) false)]
                 (set_frame_skip 1 init))).
Proof.
  apply (detector_on_every_frame GUI
           [Some (frame_at 1000 (Some []) false);
            Some (frame_at 1100 (Some [[cat_box]]) false)]
           (set_frame_skip 1 init)).
  reflexivity.
Defined.

(** A frame left by an exception did one of two things. *)
Lemma step_raised p s f :
  raised (step p s f) <> None ->
  step p s f = raise ZeroDivisionError s [] \/
  step p s f = raise DetectorError s [model_call].
Proof.
  intros R.
  destruct (Z.eq_dec (frame_skip s) 0) as [H0|H0];
    [left; apply step_zero_skip; exact H0|].
  right.
  destruct (Z.eq_dec (frame_count s mod frame_skip s) 0) as [Hm|Hm].
  - destruct (results f) as [rs|] eqn:Hr;
      [|apply step_detector_fails; assumption].
    exfalso. apply R.
    destruct (person_found p (collect rs)) eqn:Hp.
    + apply (step_detector_person p s f rs H0 Hm Hr Hp).
    + apply (step_detector_other p s f rs H0 Hm Hr Hp).
  - exfalso. apply R. apply (step_skipped p s f H0 Hm).
Qed.

(** X11. A frame that an exception leaves has changed no field of the
    state, saved no picture, dispatched no alert and run no motion
    sensing. *)
Theorem exception_leaves_state p s f :
  raised (step p s f) <> None ->
  post (step p s f) = s /\
  dispatched (step p s f) = [] /\
  (forall folder, saved folder (step p s f) = []) /\
  sensed (step p s f) = false.
Proof.
  intros R. destruct (step_raised p s f R) as [E|E]; rewrite E;
    repeat split.
Qed.

Lemma exception_leaves_state_witness :
  post (step Headless (mk_state 5 true 0 [cat_det] 700 800)
          (frame_at 1000 None true))
  = mk_state 5 true 0 [cat_det] 700 800.
Proof.
  apply (exception_leaves_state Headless (mk_state 5 true 0 [cat_det] 700 800)
           (frame_at 1000 None true)).
  discriminate.
Defined.

(** X12. With [frame_skip = 0] the test [frame_count % frame_skip] raises
    on the first frame read: the loop of either front end ends there with
    [ZeroDivisionError], before any detection, save or alert. *)
Theorem zero_skip_ends_loop p s f rest :
  frame_skip s = 0 ->
  loop p (Some f :: rest) s
  = ([raise ZeroDivisionError s []], crashed ZeroDivisionError).
Proof.
  intros H0. rewrite loop_cons, (step_zero_skip p s f H0). reflexivity.
Qed.

Lemma zero_skip_ends_loop_witness :
  loop Headless
    [Some (frame_at 1000 (Some [[person_box]]) true); Some (frame_at 1100 None true)]
    (set_frame_skip 0 init)
  = ([raise ZeroDivisionError (set_frame_skip 0 init) []],
     crashed ZeroDivisionError).
Proof.
  apply (zero_skip_ends_loop Headless (set_frame_skip 0 init)
           (frame_at 1000 (Some [[person_box]]) true)
           [Some (frame_at 1100 None true)]).
  reflexivity.
Defined.

(** ** The batch *)

Lemma collect_as_filter results :
  collect results = map to_detection (filter box_allowed (List.concat results)).
Proof.
  unfold collect, box_allowed.
  induction results as [|r rest IH]; [reflexivity|].
  cbn [flat_map List.concat]. rewrite filter_app, map_app, <- IH. f_equal.
  clear IH. induction r as [|b r IHr]; [reflexivity|].
  cbn [flat_map filter]. unfold keep_box at 1.
  destruct (label_in (cls_label b) allowed_labels); cbn [map app];
    rewrite IHr; reflexivity.
Qed.


(** X14. A detector frame whose boxes all carry other labels empties the
    cache, saves no person/pet picture, dispatches no person or animal
    alert and leaves [motion_disabled_until] as it was. *)
Theorem empty_batch_clears_cache p s f rs :
  frame_skip s <> 0 ->
  frame_count s mod frame_skip s = 0 ->
  results f = Some rs ->
  forallb (fun b => negb (box_allowed b)) (List.concat rs) = true ->
  persistent_detections (post (step p s f)) = [] /\
  person_saves (step p s f) = [] /\
  detection_alerts (step p s f) = [] /\
  motion_disabled_until (post (step p s f)) = motion_disabled_until s.
Proof.
  intros H0 Hm Hr Hno.
  assert (Hc : collect rs = []).
  { rewrite collect_as_filter.
    replace (filter box_allowed (List.concat rs)) with (@nil box); [reflexivity|].
    symmetry. induction (List.concat rs) as [|b l IH]; [reflexivity|].
    cbn [forallb] in Hno. apply andb_prop in Hno. destruct Hno as [Hb Hl].
    cbn [filter]. destruct (box_allowed b); [discriminate|]. apply IH, Hl. }
  assert (Hp : person_found p (collect rs) = false)
    by (rewrite Hc; destruct p; reflexivity).
  destruct (step_detector_other p s f rs H0 Hm Hr Hp)
    as (R & _ & C & _ & _ & U & _ & _ & D & _).
  destruct (step_person_save p s f R) as (S & _).
  rewrite S, C, D, Hc, U. cbn [is_nil negb andb].
  repeat split. destruct p; reflexivity.
Qed.

Lemma empty_batch_clears_cache_witness :
  persistent_detections
    (post (step Headless (mk_state 5 true 0 [cat_det] 0 0)
             (frame_at 1000 (Some [[chair_box]]) false))) = [].
Proof.
  apply (empty_batch_clears_cache Headless (mk_state 5 true 0 [cat_det] 0 0)
           (frame_at 1000 (Some [[chair_box]]) false) [[chair_box]]);
    [discriminate | reflexivity | reflexivity | reflexivity].
Defined.

(** ** The two front ends *)

Lemma step_cadence_view s1 s2 f :
  cadence s1 = cadence s2 ->
  cadence_view (step GUI s1 f) = cadence_view (step Headless s2 f).
Proof.
  unfold cadence_view, cadence. intros E. injection E as Ek Ec Ed.
  destruct (step_cadence GUI s1 f) as (R1 & I1 & C1).
  destruct (step_cadence Headless s2 f) as (R2 & I2 & C2).
  destruct (step_keeps GUI s1 f) as (K1 & Hr1 & Hn1 & _).
  destruct (step_keeps Headless s2 f) as (K2 & Hr2 & Hn2 & _).
  unfold detector_frame in *. rewrite Ek, Ec, Ed in *.
  rewrite <- R2 in R1. rewrite <- I2 in I1. rewrite <- C2 in C1.
  assert (N : frame_count (post (step GUI s1 f))
              = frame_count (post (step Headless s2 f))).
  { destruct (raised (step Headless s2 f)) as [e|] eqn:R.
    - rewrite Hr1 by (rewrite R1; discriminate).
      rewrite Hr2 by discriminate. exact Ec.
    - rewrite (Hn1 R1), (Hn2 eq_refl). reflexivity. }
  rewrite R1, I1, C1, K1, K2, N. reflexivity.
Qed.

(** X15. Given the same frames, the GUI and the headless loop process the
    same number of them, invoke the detector on the same ones, fail on the
    same one, and hold the same [frame_count] and the same cache after
    each: they differ only in alerts, saves and the motion gate. *)
Theorem front_ends_agree_on_cadence fs :
  forall s1 s2,
    cadence s1 = cadence s2 ->
    map cadence_view (fst (GUI_webcam.mainloop (map Some fs) s1))
    = map cadence_view (fst (headless.run (map Some fs) s2)) /\
    snd (GUI_webcam.mainloop (map Some fs) s1)
    = snd (headless.run (map Some fs) s2).
Proof.
  induction fs as [|f fs IH]; intros s1 s2 E; [split; reflexivity|].
  pose proof (step_cadence_view s1 s2 f E) as V.
  assert (ER : raised (GUI_webcam.update s1 f) = raised (headless.frame s2 f))
    by (unfold cadence_view in V; cbn [step] in V; congruence).
  assert (EC : cadence (post (GUI_webcam.update s1 f))
               = cadence (post (headless.frame s2 f)))
    by (unfold cadence_view in V; cbn [step] in V; congruence).
  cbn [map GUI_webcam.mainloop headless.run]. rewrite ER.
  destruct (raised (headless.frame s2 f)) as [e|].
  - cbn [fst snd map]. cbn [step] in V. rewrite V. split; reflexivity.
  - destruct (IH _ _ EC) as (IH1 & IH2).
    destruct (GUI_webcam.mainloop (map Some fs) (post (GUI_webcam.update s1 f)))
      as [rs1 e1].
    destruct (headless.run (map Some fs) (post (headless.frame s2 f)))
      as [rs2 e2].
    cbn [fst snd map] in *. cbn [step] in V. rewrite V, IH1, IH2.
    split; reflexivity.
Qed.

Lemma front_ends_agree_on_cadence_witness :
  snd (GUI_webcam.mainloop
         (map Some [frame_at 1000 (Some [[cat_box; person_box]]) true;
                    frame_at 1100 None true])
         init)
  = snd (headless.run
           (map Some [frame_at 1000 (Some [[cat_box; person_box]]) true;
                      frame_at 1100 None true])
           init).
Proof.
  apply (front_ends_agree_on_cadence
           [frame_at 1000 (Some [[cat_box; person_box]]) true;
            frame_at 1100 None true] init init).
  reflexivity.
Defined.

(** ** Strings *)

Lemma string_length_append (s t : string) :
  String.length (s ++ t)%string = (String.length s + String.length t)%nat.
Proof. induction s as [|c s IH]; cbn; [reflexivity | rewrite IH; reflexivity]. Qed.

Lemma string_append_assoc (s t u : string) :
  ((s ++ t) ++ u = s ++ (t ++ u))%string.
Proof. induction s as [|c s IH]; cbn; [reflexivity | rewrite IH; reflexivity]. Qed.

Lemma string_append_inv_head (a a' b b' : string) :
  String.length a = String.length a' ->
  (a ++ b = a' ++ b')%string -> a = a' /\ b = b'.
Proof.
  revert a'. induction a as [|c a IH]; intros [|c' a'] L E; cbn in *;
    try discriminate.
  - split; [reflexivity | exact E].
  - injection E as Ec E. injection L as L.
    destruct (IH a' L E) as (? & ?). subst. split; reflexivity.
Qed.

Lemma string_append_inv_tail (a a' b b' : string) :
  String.length b = String.length b' ->
  (a ++ b = a' ++ b')%string -> a = a' /\ b = b'.
Proof.
  intros L E. apply string_append_inv_head; [|exact E].
  apply (f_equal String.length) in E.
  rewrite !string_length_append in E. lia.
Qed.

Lemma substring_prefix (x y : string) :
  substring 0 (String.length x) (x ++ y)%string = x.
Proof.
  induction x as [|c x IH]; cbn.
  - destruct y; reflexivity.
  - rewrite IH. reflexivity.
Qed.

Lemma drop_last_append (k : nat) (x y : string) :
  String.length y = k -> drop_last k (x ++ y)%string = x.
Proof.
  intros L. unfold drop_last. rewrite string_length_append, L.
  replace (String.length x + k - k)%nat with (String.length x) by lia.
  apply substring_prefix.
Qed.

(** ** Zero-padded numbers *)

Lemma zero_padded_length w : forall n, String.length (zero_padded w n) = w.
Proof.
  induction w as [|w IH]; intros n; cbn [zero_padded]; [reflexivity|].
  rewrite string_length_append, IH. cbn. lia.
Qed.

Lemma digit_inj n m : digit n = digit m -> (n mod 10 = m mod 10)%N.
Proof.
  unfold digit. intros E. apply (f_equal Ascii.N_of_ascii) in E.
  rewrite !Ascii.N_ascii_embedding in E.
  - lia.
  - pose proof (N.mod_upper_bound m 10). lia.
  - pose proof (N.mod_upper_bound n 10). lia.
Qed.

Lemma zero_padded_inj w :
  forall n m,
    (n < 10 ^ N.of_nat w)%N -> (m < 10 ^ N.of_nat w)%N ->
    zero_padded w n = zero_padded w m -> n = m.
Proof.
  induction w as [|w IH]; intros n m Hn Hm E.
  - cbn in Hn, Hm. lia.
  - cbn [zero_padded] in E.
    apply string_append_inv_tail in E; [|reflexivity].
    destruct E as (E1 & E2). injection E2 as E2. apply digit_inj in E2.
    rewrite Nat2N.inj_succ, N.pow_succ_r' in Hn, Hm.
    assert (n / 10 = m / 10)%N.
    { apply IH; [| |exact E1].
      - apply N.Div0.div_lt_upper_bound. exact Hn.
      - apply N.Div0.div_lt_upper_bound. exact Hm. }
    rewrite (N.div_mod' n 10), (N.div_mod' m 10). congruence.
Qed.

Lemma zero_padded_split a b :
  forall n,
    zero_padded (a + b) n
    = (zero_padded a (n / 10 ^ N.of_nat b)%N ++ zero_padded b n)%string.
Proof.
  induction b as [|b IH]; intros n.
  - rewrite Nat.add_0_r. cbn [N.of_nat zero_padded].
    rewrite N.pow_0_r, N.div_1_r.
    induction (zero_padded a n) as [|c s IHs]; cbn; [reflexivity|].
    rewrite <- IHs. reflexivity.
  - rewrite <- plus_n_Sm. cbn [zero_padded].
    rewrite IH, string_append_assoc.
    rewrite Nat2N.inj_succ, N.pow_succ_r', N.Div0.div_div.
    reflexivity.
Qed.

(** The time stamp of a saved frame, after the slice: the seconds and the
    milliseconds. *)
Lemma frame_stamp_eq t :
  drop_last 3 (strftime_micro t)
  = (strftime_seconds t ++ "_" ++ zero_padded 3 (microsecond t / 1000)%N)%string.
Proof.
  unfold strftime_micro.
  change (zero_padded 6 (microsecond t))
    with (zero_padded (3 + 3) (microsecond t)).
  rewrite (zero_padded_split 3 3 (microsecond t)).
  change (10 ^ N.of_nat 3)%N with 1000%N.
  rewrite <- !string_append_assoc.
  apply drop_last_append. apply zero_padded_length.
Qed.

Ltac split_padded :=
  repeat match goal with
  | H : (zero_padded ?w _ ++ _ = zero_padded ?w _ ++ _)%string |- _ =>
      apply string_append_inv_head in H;
      [ let E := fresh "E" in destruct H as [E H]
      | rewrite !zero_padded_length; reflexivity ]
  | H : (?a ++ _ = ?a ++ _)%string |- _ =>
      apply string_append_inv_head in H;
      [ let E := fresh "E" in destruct H as [E H]; clear E
      | reflexivity ]
  end.

Ltac padded_eq w :=
  match goal with
  | H : zero_padded w ?n = zero_padded w ?m |- ?n = ?m =>
      apply (zero_padded_inj w); [ cbn; lia | cbn; lia | exact H ]
  end.

Lemma datetime_eq (a b : datetime) :
  hour a = hour b -> minute a = minute b -> second a = second b -> a = b.
Proof. destruct a, b; cbn; intros; subst; reflexivity. Qed.

Lemma strftime_seconds_inj t1 t2 :
  valid_stamp t1 -> valid_stamp t2 ->
  strftime_seconds t1 = strftime_seconds t2 -> same_second t1 t2.
Proof.
  intros ((Y1 & M1 & D1 & U1) & (h1 & m1 & s1))
         ((Y2 & M2 & D2 & U2) & (h2 & m2 & s2)) E.
  unfold strftime_seconds in E. split_padded.
  unfold same_second. repeat split.
  - padded_eq 4%nat.
  - padded_eq 2%nat.
  - padded_eq 2%nat.
  - apply datetime_eq; apply Nat2N.inj; padded_eq 2%nat.
Qed.

Lemma strftime_seconds_same t1 t2 :
  same_second t1 t2 -> strftime_seconds t1 = strftime_seconds t2.
Proof.
  intros (Y & M & D & T). unfold strftime_seconds. rewrite Y, M, D, T.
  reflexivity.
Qed.

Lemma frame_stamp_inj t1 t2 :
  valid_stamp t1 -> valid_stamp t2 ->
  drop_last 3 (strftime_micro t1) = drop_last 3 (strftime_micro t2) ->
  same_millisecond t1 t2.
Proof.
  intros V1 V2 E. rewrite !frame_stamp_eq in E.
  apply string_append_inv_tail in E;
    [|cbn [String.append String.length]; rewrite !zero_padded_length; reflexivity].
  destruct E as (E & Em).
  apply string_append_inv_head in Em; [|reflexivity]. destruct Em as (_ & Em).
  destruct (strftime_seconds_inj t1 t2 V1 V2 E) as (Y & M & D & T).
  unfold same_millisecond. repeat split; try assumption.
  destruct V1 as ((_ & _ & _ & U1) & _), V2 as ((_ & _ & _ & U2) & _).
  apply (zero_padded_inj 3); [| |exact Em];
    apply N.Div0.div_lt_upper_bound; cbn; lia.
Qed.

Lemma frame_stamp_same t1 t2 :
  same_millisecond t1 t2 ->
  drop_last 3 (strftime_micro t1) = drop_last 3 (strftime_micro t2).
Proof.
  intros (Y & M & D & T & U). rewrite !frame_stamp_eq, U.
  rewrite (strftime_seconds_same t1 t2); [reflexivity|].
  repeat split; assumption.
Qed.

Lemma frame_stamp_length t :
  String.length (drop_last 3 (strftime_micro t)) = 19%nat.
Proof.
  rewrite frame_stamp_eq. unfold strftime_seconds.
  rewrite !string_length_append, !zero_padded_length. reflexivity.
Qed.

Lemma strftime_seconds_length t : String.length (strftime_seconds t) = 15%nat.
Proof.
  unfold strftime_seconds.
  rewrite !string_length_append, !zero_padded_length. reflexivity.
Qed.

(** ** os.path.join *)

Lemma starts_with_sep_name prefix rest :
  starts_with_sep prefix = false ->
  starts_with_sep (prefix ++ "_" ++ rest)%string = false.
Proof. destruct prefix; [reflexivity | exact (fun H => H)]. Qed.

Lemma os_path_join_inj folder a b :
  starts_with_sep a = false -> starts_with_sep b = false ->
  os_path_join folder a = os_path_join folder b -> a = b.
Proof.
  unfold os_path_join. intros Ha Hb. rewrite Ha, Hb.
  destruct (match folder with EmptyString => true | _ => false end
            || ends_with_sep folder); intros E.
  - apply string_append_inv_head in E; [tauto | reflexivity].
  - apply string_append_inv_head in E; [|reflexivity].
    destruct E as (_ & E). injection E as E. exact E.
Qed.

(** ** File names *)

Lemma frame_filename_eq_iff folder p1 p2 t1 t2 :
  valid_stamp t1 -> valid_stamp t2 ->
  starts_with_sep p1 = false -> starts_with_sep p2 = false ->
  (frame_filename folder p1 t1 = frame_filename folder p2 t2
   <-> p1 = p2 /\ same_millisecond t1 t2).
Proof.
  intros V1 V2 S1 S2. unfold frame_filename. split.
  - intros E. apply os_path_join_inj in E;
      try (apply starts_with_sep_name; assumption).
    apply string_append_inv_tail in E.
    + destruct E as (Ep & E). split; [exact Ep|].
      apply string_append_inv_head in E; [|reflexivity].
      destruct E as (_ & E).
      apply string_append_inv_head in E;
        [|rewrite !frame_stamp_length; reflexivity].
      apply frame_stamp_inj; tauto.
    + cbn [String.append String.length].
      rewrite !string_length_append, !frame_stamp_length. reflexivity.
  - intros (-> & M). rewrite (frame_stamp_same t1 t2 M). reflexivity.
Qed.

Lemma log_filename_eq_iff folder p1 p2 t1 t2 :
  valid_stamp t1 -> valid_stamp t2 ->
  starts_with_sep p1 = false -> starts_with_sep p2 = false ->
  (log_filename folder p1 t1 = log_filename folder p2 t2
   <-> p1 = p2 /\ same_second t1 t2).
Proof.
  intros V1 V2 S1 S2. unfold log_filename. split.
  - intros E. apply os_path_join_inj in E;
      try (apply starts_with_sep_name; assumption).
    apply string_append_inv_tail in E.
    + destruct E as (Ep & E). split; [exact Ep|].
      apply string_append_inv_head in E; [|reflexivity].
      destruct E as (_ & E).
      apply string_append_inv_head in E;
        [|rewrite !strftime_seconds_length; reflexivity].
      apply strftime_seconds_inj; tauto.
    + cbn [String.append String.length].
      rewrite !string_length_append, !strftime_seconds_length. reflexivity.
  - intros (-> & M). rewrite (strftime_seconds_same t1 t2 M). reflexivity.
Qed.

(** X16. Two frames saved into the same folder get the same file name
    exactly when they have the same prefix and their time stamps fall in
    the same millisecond: the name keeps the time down to the millisecond
    and drops the microseconds below it. *)
Theorem frame_filename_collision folder p1 p2 t1 t2 :
  valid_stamp t1 -> valid_stamp t2 ->
  starts_with_sep p1 = false -> starts_with_sep p2 = false ->
  (frame_filename folder p1 t1 = frame_filename folder p2 t2
   <-> p1 = p2 /\ same_millisecond t1 t2).
Proof. apply frame_filename_eq_iff. Qed.

Lemma frame_filename_collision_witness :
  frame_filename "/cam/person_frames_detected" "person_pet" stamp_a
  = frame_filename "/cam/person_frames_detected" "person_pet" stamp_b
  <-> "person_pet" = "person_pet" /\ same_millisecond stamp_a stamp_b.
Proof.
  apply (frame_filename_collision "/cam/person_frames_detected"
           "person_pet" "person_pet" stamp_a stamp_b);
    try reflexivity; unfold valid_stamp; repeat split; try reflexivity; cbn; lia.
Defined.

(** X17. Two log entries written into the same folder get the same file
    name exactly when they have the same prefix and fall in the same
    second. *)
Theorem log_filename_collision folder p1 p2 t1 t2 :
  valid_stamp t1 -> valid_stamp t2 ->
  starts_with_sep p1 = false -> starts_with_sep p2 = false ->
  (log_filename folder p1 t1 = log_filename folder p2 t2
   <-> p1 = p2 /\ same_second t1 t2).
Proof. apply log_filename_eq_iff. Qed.

Lemma log_filename_collision_witness :
  log_filename "/cam/logs/motion_logs" "motion" stamp_a
  = log_filename "/cam/logs/motion_logs" "motion" stamp_c
  <-> "motion" = "motion" /\ same_second stamp_a stamp_c.
Proof.
  apply (log_filename_collision "/cam/logs/motion_logs"
           "motion" "motion" stamp_a stamp_c);
    try reflexivity; unfold valid_stamp; repeat split; try reflexivity; cbn; lia.
Defined.

(** ** Saving twice *)

Lemma write_file_same {A} path (x : A) d : write_file path x d path = Some x.
Proof. unfold write_file. rewrite String.eqb_refl. reflexivity. Qed.

Lemma write_file_other {A} path other (x : A) d :
  other <> path -> write_file path x d other = d other.
Proof.
  intros H. unfold write_file.
  destruct (String.eqb_spec other path); [contradiction | reflexivity].
Qed.

(** X18. Two successful [save_frame] calls with the same folder and
    prefix: the second picture is on disk under its name; the first
    picture is still on disk under its own name when the two time stamps
    are not in the same millisecond, and has been replaced by the second
    when they are. *)
Theorem save_frame_twice picture1 picture2 folder prefix t1 t2 d :
  valid_stamp t1 -> valid_stamp t2 ->
  starts_with_sep prefix = false ->
  let d1 := fst (save_frame_call picture1 folder prefix t1 io_done d) in
  let d2 := fst (save_frame_call picture2 folder prefix t2 io_done d1) in
  d2 (frame_filename folder prefix t2) = Some picture2 /\
  (same_millisecond t1 t2 ->
   d2 (frame_filename folder prefix t1) = Some picture2) /\
  (~ same_millisecond t1 t2 ->
   d2 (frame_filename folder prefix t1) = Some picture1).
Proof.
  intros V1 V2 S. cbv zeta. cbn [save_frame_call fst].
  pose proof (frame_filename_eq_iff folder prefix prefix t1 t2 V1 V2 S S) as I.
  split; [apply write_file_same|]. split; intros M.
  - rewrite (proj2 I (conj eq_refl M)). apply write_file_same.
  - rewrite write_file_other; [apply write_file_same|].
    intros E. apply M. apply I. exact E.
Qed.

Lemma save_frame_twice_witness :
  fst (save_frame_call [cat_det] "/cam/person_frames_detected" "person_pet"
         stamp_b io_done
         (fst (save_frame_call [person_det] "/cam/person_frames_detected"
                 "person_pet" stamp_a io_done empty_disk)))
      (frame_filename "/cam/person_frames_detected" "person_pet" stamp_b)
  = Some [cat_det].
Proof.
  apply (save_frame_twice [person_det] [cat_det] "/cam/person_frames_detected"
           "person_pet" stamp_a stamp_b empty_disk);
    try reflexivity; unfold valid_stamp; repeat split; try reflexivity; cbn; lia.
Defined.

(** X19. [save_log] opens its file for writing: after two successful
    calls with the same folder and prefix, the file of the second holds the
    second message and a newline; the file of the first still holds the
    first message when the two calls are not in the same second, and holds
    the second message alone when they are. *)
Theorem save_log_twice message1 message2 folder prefix t1 t2 d :
  valid_stamp t1 -> valid_stamp t2 ->
  starts_with_sep prefix = false ->
  let d1 := fst (save_log message1 folder prefix t1 io_done d) in
  let d2 := fst (save_log message2 folder prefix t2 io_done d1) in
  d2 (log_filename folder prefix t2) = Some (message2 ++ newline)%string /\
  (same_second t1 t2 ->
   d2 (log_filename folder prefix t1) = Some (message2 ++ newline)%string) /\
  (~ same_second t1 t2 ->
   d2 (log_filename folder prefix t1) = Some (message1 ++ newline)%string).
Proof.
  intros V1 V2 S. cbv zeta. cbn [save_log fst].
  pose proof (log_filename_eq_iff folder prefix prefix t1 t2 V1 V2 S S) as I.
  split; [apply write_file_same|]. split; intros M.
  - rewrite (proj2 I (conj eq_refl M)). apply write_file_same.
  - rewrite write_file_other; [apply write_file_same|].
    intros E. apply M. apply I. exact E.
Qed.

Lemma save_log_twice_witness :
  fst (save_log "second" "/cam/logs/motion_logs" "motion" stamp_c io_done
         (fst (save_log "first" "/cam/logs/motion_logs" "motion" stamp_a
                 io_done empty_disk)))
      (log_filename "/cam/logs/motion_logs" "motion" stamp_c)
  = Some ("second" ++ newline)%string.
Proof.
  apply (save_log_twice "first" "second" "/cam/logs/motion_logs" "motion"
           stamp_a stamp_c empty_disk);
    try reflexivity; unfold valid_stamp; repeat split; try reflexivity; cbn; lia.
Defined.

(** ** The spoken time *)

Lemma two_digits_padded n :
  (n < 100)%nat -> two_digits n = zero_padded 2 (N.of_nat n).
Proof.
  intros H.
  assert (A : forallb (fun k => String.eqb (two_digits k)
                                  (zero_padded 2 (N.of_nat k)))
                      (seq 0 100) = true) by (vm_compute; reflexivity).
  rewrite forallb_forall in A. apply String.eqb_eq. apply A.
  apply in_seq. lia.
Qed.

(** X20. For hours, minutes and seconds below 100 the spoken time is
    "HH horas, MM minutos e SS segundos" with each number on exactly two
    digits, and two different times of day are never spoken alike. *)
Theorem format_detection_time_inj t1 t2 :
  (hour t1 < 100 /\ minute t1 < 100 /\ second t1 < 100)%nat ->
  (hour t2 < 100 /\ minute t2 < 100 /\ second t2 < 100)%nat ->
  format_detection_time t1
  = (zero_padded 2 (N.of_nat (hour t1)) ++ " horas, "
     ++ zero_padded 2 (N.of_nat (minute t1)) ++ " minutos e "
     ++ zero_padded 2 (N.of_nat (second t1)) ++ " segundos")%string /\
  (format_detection_time t1 = format_detection_time t2 -> t1 = t2).
Proof.
  intros (h1 & m1 & s1) (h2 & m2 & s2).
  unfold format_detection_time.
  rewrite !two_digits_padded by assumption.
  split; [reflexivity|]. intros E.
  split_padded.
  apply datetime_eq; apply Nat2N.inj.
  - padded_eq 2%nat.
  - padded_eq 2%nat.
  - padded_eq 2%nat.
Qed.

Lemma format_detection_time_inj_witness :
  format_detection_time noon
  = (zero_padded 2 (N.of_nat (hour noon)) ++ " horas, "
     ++ zero_padded 2 (N.of_nat (minute noon)) ++ " minutos e "
     ++ zero_padded 2 (N.of_nat (second noon)) ++ " segundos")%string.
Proof.
  apply (format_detection_time_inj noon noon); cbn; lia.
Defined.

(** ** Sequences of audio requests *)

Lemma allow_sequence_spaced C cs :
  forall last,
    (forall c, In c cs -> C <= snd c) ->
    spaced C (last :: allowed_times cs (allow_sequence cs last)).
Proof.
  induction cs as [|[t Ci] rest IH]; intros last H; [exact I|].
  cbn [allow_sequence allowed_times].
  assert (Hrest : forall c, In c rest -> C <= snd c)
    by (intros c Hc; apply H; right; exact Hc).
  destruct (Z.leb_spec Ci (t - last)) as [Hle|Hgt].
  - cbn [spaced]. split.
    + specialize (H (t, Ci) (or_introl eq_refl)). cbn in H. lia.
    + apply IH. exact Hrest.
  - apply IH. exact Hrest.
Qed.

(** X21. In any sequence of calls of [play_gtts_text] whose cooldowns are
    all at least [C], each call that plays comes at least [C] after the
    previous one that played (the first one, at least [C] after the
    initial [last_audio_time]), whatever the order of the clock
    readings. *)
Theorem audio_requests_spaced text speed C cs last :
  (forall c, In c cs -> C <= snd c) ->
  spaced C (last :: allowed_times cs (fst (tts_player.calls text speed cs last))).
Proof.
  intros H. rewrite calls_allow_sequence. cbn [fst].
  apply allow_sequence_spaced. exact H.
Qed.

Lemma audio_requests_spaced_witness :
  spaced 3000
    (0 :: allowed_times [(10000, 3000); (11000, 10000); (14000, 3000)]
            (fst (tts_player.calls "x" 171
                    [(10000, 3000); (11000, 10000); (14000, 3000)] 0))).
Proof.
  apply (audio_requests_spaced "x" 171 3000
           [(10000, 3000); (11000, 10000); (14000, 3000)] 0).
  intros c [<-|[<-|[<-|[]]]]; cbn; lia.
Defined.


(** ** Motion saves of the two front ends *)

(** X22. The headless loop saves a motion picture on a frame exactly when
    motion sensing ran, found significant motion and 0.2 s have passed
    since the last motion save; it then saves one picture, the frame with
    the boxes of the cache drawn on it, sets [last_saved_times["motion"]]
    to the time of the frame, and dispatches the motion alert. *)
Theorem headless_motion_save_throttled s f :
  (saved MOTION_FRAMES_DIR (headless.frame s f) <> [] <->
   sensed (headless.frame s f) = true /\ significant_motion f = true /\
   200 <= current_time f - last_saved_motion s) /\
  (saved MOTION_FRAMES_DIR (headless.frame s f) <> [] ->
   saved MOTION_FRAMES_DIR (headless.frame s f)
   = [persistent_detections (post (headless.frame s f))] /\
   In motion_alert (dispatched (headless.frame s f)) /\
   last_saved_motion (post (headless.frame s f)) = current_time f).
Proof. apply headless_motion_save. Qed.

(** X23. The GUI saves a motion picture on a frame exactly when motion
    sensing ran and found significant motion, without any test of the time
    of the last motion save; the picture is the raw frame, with no box
    drawn on it, and the motion alert is dispatched. *)
Theorem GUI_motion_save_raw s f :
  (saved MOTION_FRAMES_DIR (GUI_webcam.update s f) <> [] <->
   sensed (GUI_webcam.update s f) = true /\ significant_motion f = true) /\
  (saved MOTION_FRAMES_DIR (GUI_webcam.update s f) <> [] ->
   saved MOTION_FRAMES_DIR (GUI_webcam.update s f) = [[]] /\
   In motion_alert (dispatched (GUI_webcam.update s f)) /\
   last_saved_motion (post (GUI_webcam.update s f)) = current_time f).
Proof. apply GUI_motion_save. Qed.

(** ** The throttles, store by store *)

Lemma allow_state c now cooldown s :
  snd (allow c now cooldown s)
  = if fst (allow c now cooldown s) then write_last_fired c now s else s.
Proof.
  destruct c; cbn [allow write_last_fired].
  - destruct (cooldown <=? now - last_saved_motion s); reflexivity.
  - destruct (cooldown <=? now - last_saved_person s); reflexivity.
  - rewrite play_gtts_text_leb.
    destruct (cooldown <=? now - last_audio_time s); cbn; [reflexivity|].
    destruct s; reflexivity.
Qed.

Lemma allow_leb c now cooldown s :
  fst (allow c now cooldown s) = (cooldown <=? now - last_fired c s).
Proof.
  destruct (fst (allow c now cooldown s)) eqn:E; symmetry.
  - apply Z.leb_le. apply allow_iff. exact E.
  - apply Z.leb_gt. destruct (Z.lt_ge_cases (now - last_fired c s) cooldown) as [H|H];
      [exact H|]. apply allow_iff in H. congruence.
Qed.

Lemma last_fired_write c c' t s :
  last_fired c' (write_last_fired c t s)
  = if same_store c c' then t else last_fired c' s.
Proof. destruct c as [| |a], c' as [| |a']; try reflexivity.
  unfold same_store. cbn [shared]. rewrite orb_true_r. reflexivity.
Qed.

Lemma allow_per_store_ext cs :
  forall l1 l2, (forall c, l1 c = l2 c) ->
                allow_per_store cs l1 = allow_per_store cs l2.
Proof.
  induction cs as [|[[c t] C] rest IH]; intros l1 l2 H; [reflexivity|].
  cbn [allow_per_store]. rewrite (H c). f_equal.
  apply IH. intros c'. cbv beta. rewrite (H c'). reflexivity.
Qed.

Lemma requests_per_store cs :
  forall s, requests cs s = allow_per_store cs (fun c => last_fired c s).
Proof.
  induction cs as [|[[c t] C] rest IH]; intros s; [reflexivity|].
  cbn [requests allow_per_store]. rewrite allow_leb. f_equal.
  rewrite IH. apply allow_per_store_ext. intros c'. cbv beta.
  rewrite allow_state, allow_leb.
  destruct (C <=? t - last_fired c s); cbn [andb]; [|reflexivity].
  apply last_fired_write.
Qed.

Lemma speak_is_allow a text cooldown speed clock s :
  speak a text cooldown speed clock s
  = (snd (allow (alert_category a) clock cooldown s),
     [play_gtts a text cooldown speed
        (snd (tts_player.play_gtts_text text cooldown speed clock
                (last_audio_time s)))]) /\
  tts_player.spoke
    (tts_player.play_gtts_text text cooldown speed clock (last_audio_time s))
  = fst (allow (alert_category a) clock cooldown s).
Proof.
  unfold speak. cbn [allow fst snd].
  rewrite !play_gtts_text_leb.
  destruct (cooldown <=? clock - last_audio_time s); split; reflexivity.
Qed.

Lemma headless_save_person_is_allow f drawn s :
  persistent_detections s <> [] ->
  headless.save_person f drawn s
  = (snd (allow person_save (current_time f) 200 s),
     if fst (allow person_save (current_time f) 200 s)
     then [save_frame PERSON_FRAMES_DIR "person_pet" drawn] else []).
Proof.
  intros H. unfold headless.save_person. cbn [allow].
  destruct (persistent_detections s); [congruence|]. cbn [is_nil negb andb].
  destruct (200 <=? current_time f - last_saved_person s); reflexivity.
Qed.

Lemma GUI_draw_loop_is_allow ds f drawn s :
  ds <> [] -> persistent_detections s <> [] ->
  GUI_webcam.draw_loop ds f drawn s
  = (snd (allow person_save (current_time f) 200 s),
     if fst (allow person_save (current_time f) 200 s)
     then [save_frame PERSON_FRAMES_DIR "person_pet" (drawn ++ firstn 1 ds)]
     else []).
Proof.
  intros Hd H. rewrite GUI_draw_loop_eq. cbn [allow].
  destruct ds; [congruence|]. destruct (persistent_detections s); [congruence|].
  cbn [is_nil negb andb].
  destruct (200 <=? current_time f - last_saved_person s); reflexivity.
Qed.

Lemma headless_motion_is_allow f drawn s :
  motion_enabled s = true -> significant_motion f = true ->
  headless.motion f drawn s
  = if fst (allow motion_save (current_time f) 200 s) then
      (fst (speak motion_alert "Movimento detectado!" 10000 222 (motion_clock f)
              (snd (allow motion_save (current_time f) 200 s))),
       motion_apply :: save_frame MOTION_FRAMES_DIR "motion" drawn
         :: snd (speak motion_alert "Movimento detectado!" 10000 222
                   (motion_clock f)
                   (snd (allow motion_save (current_time f) 200 s))))
    else (s, [motion_apply]).
Proof.
  intros He Hs. unfold headless.motion. rewrite He, Hs. cbn [allow andb].
  destruct (200 <=? current_time f - last_saved_motion s); reflexivity.
Qed.

(** Counterexample to C6 as stated: a motion-alert is allowed at 100 s
    and a person-alert is asked for at 101 s with a cooldown of 3 s.  No
    person-alert has fired before, so with a [last_fired] per category the
    request is allowed; the code refuses it. *)
Lemma alert_refused_inside_other_cooldown :
  requests [(alert_category motion_alert, 100000, 10000);
            (alert_category person_alert, 101000, 3000)] init
  = [true; false] /\
  allow_per_category [(alert_category motion_alert, 100000, 10000);
                      (alert_category person_alert, 101000, 3000)]
                     (fun c => last_fired c init)
  = [true; true].
Proof. split; reflexivity. Qed.

(** C6, amended. [last_fired] is kept per store, not per category: the
    three alert categories share [last_audio_time], the person save and
    the motion save have a key each.  The check-and-update of a category
    returns true iff [now - last_fired >= cooldown] for the store of that
    category; a true result performs the one assignment of [now] to that
    store and a false result changes nothing; over a sequence of requests
    each one is allowed iff [now - last_fired >= cooldown] for the time its
    store was last written.  The operation is the one the code performs at
    [play_gtts_text] (every call site), at the person/pet save of the
    headless loop and of the GUI drawing loop, and at the motion save of
    the headless loop.  (The motion save of the GUI is not among them.) *)
Theorem throttle_per_store :
  (forall c now cooldown s,
     (fst (allow c now cooldown s) = true
      <-> cooldown <= now - last_fired c s) /\
     snd (allow c now cooldown s)
     = (if fst (allow c now cooldown s) then write_last_fired c now s else s)) /\
  (forall cs s,
     requests cs s = allow_per_store cs (fun c => last_fired c s)) /\
  (forall text cooldown speed now last,
     let r := tts_player.play_gtts_text text cooldown speed now last in
     (tts_player.spoke r = true <-> cooldown <= now - last) /\
     (tts_player.spoke r = true -> fst r = now) /\
     (tts_player.spoke r = false -> r = (last, []))) /\
  (forall text speed cs last,
     tts_player.calls text speed cs last
     = (allow_sequence cs last, last_true_time cs last)) /\
  (forall a text cooldown speed clock s,
     speak a text cooldown speed clock s
     = (snd (allow (alert_category a) clock cooldown s),
        [play_gtts a text cooldown speed
           (snd (tts_player.play_gtts_text text cooldown speed clock
                   (last_audio_time s)))]) /\
     tts_player.spoke
       (tts_player.play_gtts_text text cooldown speed clock (last_audio_time s))
     = fst (allow (alert_category a) clock cooldown s)) /\
  (forall f drawn s,
     persistent_detections s <> [] ->
     headless.save_person f drawn s
     = (snd (allow person_save (current_time f) 200 s),
        if fst (allow person_save (current_time f) 200 s)
        then [save_frame PERSON_FRAMES_DIR "person_pet" drawn] else [])) /\
  (forall ds f drawn s,
     ds <> [] -> persistent_detections s <> [] ->
     GUI_webcam.draw_loop ds f drawn s
     = (snd (allow person_save (current_time f) 200 s),
        if fst (allow person_save (current_time f) 200 s)
        then [save_frame PERSON_FRAMES_DIR "person_pet" (drawn ++ firstn 1 ds)]
        else [])) /\
  (forall f drawn s,
     motion_enabled s = true -> significant_motion f = true ->
     headless.motion f drawn s
     = if fst (allow motion_save (current_time f) 200 s) then
         (fst (speak motion_alert "Movimento detectado!" 10000 222
                 (motion_clock f)
                 (snd (allow motion_save (current_time f) 200 s))),
          motion_apply :: save_frame MOTION_FRAMES_DIR "motion" drawn
            :: snd (speak motion_alert "Movimento detectado!" 10000 222
                      (motion_clock f)
                      (snd (allow motion_save (current_time f) 200 s))))
       else (s, [motion_apply])).
Proof.
  repeat match goal with |- _ /\ _ => split end.
  - intros. split; [apply allow_iff | apply allow_state].
  - apply requests_per_store.
  - intros text cooldown speed now last r. subst r.
    split; [apply play_gtts_text_spoke|].
    split; [apply play_gtts_text_update | apply play_gtts_text_quiet].
  - intros. apply calls_allow_sequence.
  - apply speak_is_allow.
  - apply headless_save_person_is_allow.
  - apply GUI_draw_loop_is_allow.
  - apply headless_motion_is_allow.
Qed.

Lemma throttle_per_store_witness :
  headless.save_person (frame_at 1000 None false) [cat_det]
    (mk_state 1 true 0 [cat_det] 0 0)
  = (snd (allow person_save 1000 200 (mk_state 1 true 0 [cat_det] 0 0)),
     if fst (allow person_save 1000 200 (mk_state 1 true 0 [cat_det] 0 0))
     then [save_frame PERSON_FRAMES_DIR "person_pet" [cat_det]] else []).
Proof.
  apply (proj1 (proj2 (proj2 (proj2 (proj2 (proj2 throttle_per_store))))))
    with (f := frame_at 1000 None false).
  discriminate.
Defined.
